(** * Backup-and-restore consistency harness: a shallow embedding

    Source: [apps/backup_and_restore/backup_and_restore.py].

    The script loads synthetic records into a vector store, deletes the
    records it marked for deletion, and validates the store through
    aggregate counts, identity lookups, filter lookups and vector
    searches.  The embedding keeps Python's data as the script has it:
    unbounded integers are [Z], floats are IEEE binary64 values
    ([spec_float] with [prec = 53], [emax = 1024]), strings are [string],
    and the effects of the script (log lines, requests to the store,
    [sys.exit], exceptions) are threaded through a small monad. *)

From Stdlib Require Import ZArith List String Ascii Bool Lia.
From Stdlib Require Import Floats.SpecFloat.
Import ListNotations.

Local Open Scope Z_scope.

(* ================================================================== *)
(** * Python numbers *)
(* ================================================================== *)

Module PyFloat.

(** Python's [float] is IEEE binary64. *)
Definition prec : Z := 53.
Definition emax : Z := 1024.

Definition float := spec_float.

Definition fmul : float -> float -> float := SFmul prec emax.
Definition fadd : float -> float -> float := SFadd prec emax.
Definition fdiv : float -> float -> float := SFdiv prec emax.

(** [int.__float__]: the nearest binary64 value (ties to even);
    [OverflowError] ([None]) when the integer is too large. *)
Definition of_int (z : Z) : option float :=
  match binary_normalize prec emax z 0 false with
  | S754_infinity _ => None
  | f => Some f
  end.

(** The integer [m * 2^e] scaled so that it can be compared with an
    integer exactly: [int_cmp_finite i v e] compares [i] with
    [v * 2^e]. *)
Definition int_cmp_finite (i v e : Z) : comparison :=
  if 0 <=? e then i ?= v * 2 ^ e else i * 2 ^ (- e) ?= v.

Definition signed (s : bool) (m : positive) : Z :=
  if s then Zneg m else Zpos m.

(** Mixed [int]/[float] comparisons are exact in Python: the integer
    is never rounded to a float first.  Every comparison with a NaN is
    false. *)
Definition int_compare (i : Z) (f : float) : option comparison :=
  match f with
  | S754_nan => None
  | S754_infinity s => Some (if s then Gt else Lt)
  | S754_zero _ => Some (i ?= 0)
  | S754_finite s m e => Some (int_cmp_finite i (signed s m) e)
  end.

(** [i < f] *)
Definition int_lt (i : Z) (f : float) : bool :=
  match int_compare i f with Some Lt => true | _ => false end.

(** [i == f] *)
Definition int_eq (i : Z) (f : float) : bool :=
  match int_compare i f with Some Eq => true | _ => false end.

(** [int(f)]: truncation towards zero; raises on NaN and on the
    infinities ([None]). *)
Definition to_int (f : float) : option Z :=
  match f with
  | S754_nan | S754_infinity _ => None
  | S754_zero _ => Some 0
  | S754_finite s m e =>
      Some (if 0 <=? e then signed s m * 2 ^ e
            else Z.quot (signed s m) (2 ^ (- e)))
  end.

(** [math.floor(f)] on a finite float, used to state the specification's
    [floor((end - start) * 0.1)]. *)
Definition floor (f : float) : option Z :=
  match f with
  | S754_nan | S754_infinity _ => None
  | S754_zero _ => Some 0
  | S754_finite s m e =>
      Some (if 0 <=? e then signed s m * 2 ^ e
            else signed s m / 2 ^ (- e))
  end.

(** [a / b] on two integers is the correctly rounded quotient.  The
    division core of [SFdiv] accepts any positive mantissas, so the
    integers are passed with exponent 0 and the quotient is rounded
    once. *)
Definition int_truediv (a b : Z) : option float :=
  match a, b with
  | _, Z0 => None (* ZeroDivisionError *)
  | Z0, Zpos _ => Some (S754_zero false)
  | Z0, Zneg _ => Some (S754_zero true)
  | Zpos p, Zpos q => Some (fdiv (S754_finite false p 0) (S754_finite false q 0))
  | Zpos p, Zneg q => Some (fdiv (S754_finite false p 0) (S754_finite true q 0))
  | Zneg p, Zpos q => Some (fdiv (S754_finite true p 0) (S754_finite false q 0))
  | Zneg p, Zneg q => Some (fdiv (S754_finite true p 0) (S754_finite true q 0))
  end.

(** The literals [0.1] and [0.9] of the script, as the binary64 values
    the Python parser produces. *)
Definition lit_0_1 : float := S754_finite false 7205759403792794 (-56).
Definition lit_0_9 : float := S754_finite false 8106479329266893 (-53).

End PyFloat.

Import PyFloat.

(* ================================================================== *)
(** * Outcomes of running Python code *)
(* ================================================================== *)

(** The exceptions the script can meet. *)
Inductive exn : Type :=
| ValueError
| TypeError
| KeyError (key : string)
| IndexError
| OverflowError
| ZeroDivisionError.

(** A piece of Python code returns a value, leaves the process through
    [sys.exit(code)], or raises an exception that nobody catches. *)
Inductive outcome (A : Type) : Type :=
| Return (a : A)
| Exit (code : Z)
| Raise (e : exn).

Arguments Return {A} a.
Arguments Exit {A} code.
Arguments Raise {A} e.

Definition obind {A B} (o : outcome A) (k : A -> outcome B) : outcome B :=
  match o with
  | Return a => k a
  | Exit c => Exit c
  | Raise e => Raise e
  end.

Definition of_option {A} (e : exn) (o : option A) : outcome A :=
  match o with Some a => Return a | None => Raise e end.

(** A Python number of the script: an [int] or a [float]. *)
Inductive pynum : Type :=
| PInt (z : Z)
| PFloat (f : float).

Module PyNum.

Definition to_float (x : pynum) : outcome float :=
  match x with
  | PInt z => of_option OverflowError (of_int z)
  | PFloat f => Return f
  end.

Definition finite_or_overflow (f : float) : outcome pynum :=
  match f with
  | S754_infinity _ => Raise OverflowError
  | _ => Return (PFloat f)
  end.

(** [x * y] *)
Definition mul (x y : pynum) : outcome pynum :=
  match x, y with
  | PInt a, PInt b => Return (PInt (a * b))
  | _, _ =>
      obind (to_float x) (fun fx =>
      obind (to_float y) (fun fy => Return (PFloat (fmul fx fy))))
  end.

(** [x + y] *)
Definition add (x y : pynum) : outcome pynum :=
  match x, y with
  | PInt a, PInt b => Return (PInt (a + b))
  | _, _ =>
      obind (to_float x) (fun fx =>
      obind (to_float y) (fun fy => Return (PFloat (fadd fx fy))))
  end.

Definition is_zero (f : float) : bool :=
  match f with S754_zero _ => true | _ => false end.

(** [x / y]: true division, always a [float]. *)
Definition truediv (x y : pynum) : outcome pynum :=
  match x, y with
  | PInt a, PInt b =>
      obind (of_option ZeroDivisionError (int_truediv a b)) finite_or_overflow
  | _, _ =>
      obind (to_float x) (fun fx =>
      obind (to_float y) (fun fy =>
        if is_zero fy then Raise ZeroDivisionError
        else Return (PFloat (fdiv fx fy))))
  end.

(** Three-way comparison; [None] when a NaN is involved. *)
Definition compare (x y : pynum) : option comparison :=
  match x, y with
  | PInt a, PInt b => Some (a ?= b)
  | PInt a, PFloat f => int_compare a f
  | PFloat f, PInt b => option_map CompOpp (int_compare b f)
  | PFloat f, PFloat g => SFcompare f g
  end.

(** [x < y] *)
Definition lt (x y : pynum) : bool :=
  match compare x y with Some Lt => true | _ => false end.

(** [x == y] *)
Definition eq (x y : pynum) : bool :=
  match compare x y with Some Eq => true | _ => false end.

(** [x != y] *)
Definition ne (x y : pynum) : bool := negb (eq x y).

(** [int(x)] *)
Definition int (x : pynum) : outcome Z :=
  match x with
  | PInt z => Return z
  | PFloat f =>
      match f with
      | S754_nan => Raise ValueError
      | _ => of_option OverflowError (to_int f)
      end
  end.

(** [math.floor(x)], which the script never calls: it is the [floor]
    of the specification. *)
Definition floor (x : pynum) : option Z :=
  match x with
  | PInt z => Some z
  | PFloat f => PyFloat.floor f
  end.

End PyNum.

(** [range(start, end)] *)
Fixpoint range_from (start : Z) (n : nat) : list Z :=
  match n with
  | O => []
  | S k => start :: range_from (start + 1) k
  end.

Definition py_range (start stop : Z) : list Z :=
  range_from start (Z.to_nat (stop - start)).

(* ================================================================== *)
(** * Identifiers: [uuid.UUID(int=i)] and its text form *)
(* ================================================================== *)

Module UUID.

(** A UUID object holds its 128-bit integer. *)
Record t : Type := Make { int : Z }.

(** [uuid.UUID(int=i)]: [ValueError] unless [0 <= i < 1 << 128]. *)
Definition of_int (i : Z) : outcome t :=
  if (0 <=? i) && (i <? 2 ^ 128) then Return (Make i) else Raise ValueError.

Definition hex_digit (d : Z) : ascii :=
  match d with
  | 0 => "0" | 1 => "1" | 2 => "2" | 3 => "3" | 4 => "4" | 5 => "5"
  | 6 => "6" | 7 => "7" | 8 => "8" | 9 => "9" | 10 => "a" | 11 => "b"
  | 12 => "c" | 13 => "d" | 14 => "e" | _ => "f"
  end%char.

(** ['%0nx' % z] for [0 <= z < 16^n]: [n] hexadecimal digits, most
    significant first. *)
Fixpoint hex_fixed (n : nat) (z : Z) : string :=
  match n with
  | O => EmptyString
  | S k => String (hex_digit ((z / 16 ^ Z.of_nat k) mod 16)) (hex_fixed k z)
  end.

(** [str(u)]: the 32 digits in groups of 8-4-4-4-12. *)
Definition to_str (u : t) : string :=
  let hex := hex_fixed 32 (int u) in
  (substring 0 8 hex ++ "-" ++ substring 8 4 hex ++ "-" ++
   substring 12 4 hex ++ "-" ++ substring 16 4 hex ++ "-" ++
   substring 20 12 hex)%string.

(** The value of one hexadecimal digit, in either case, as [int(_, 16)]
    reads it off the character code. *)
Definition hex_value (c : ascii) : option Z :=
  let code := Z.of_nat (nat_of_ascii c) in
  if (48 <=? code) && (code <=? 57) then Some (code - 48)
  else if (97 <=? code) && (code <=? 102) then Some (code - 87)
  else if (65 <=? code) && (code <=? 70) then Some (code - 55)
  else None.

(** [int(hex, 16)] on a string of digits. *)
Fixpoint parse_hex (acc : Z) (s : string) : option Z :=
  match s with
  | EmptyString => Some acc
  | String c s' =>
      match hex_value c with
      | Some d => parse_hex (16 * acc + d) s'
      | None => None
      end
  end.

(** [hex.replace('-', '')] *)
Fixpoint remove_hyphens (s : string) : string :=
  match s with
  | EmptyString => EmptyString
  | String c s' =>
      if Ascii.eqb c "-" then remove_hyphens s'
      else String c (remove_hyphens s')
  end.

(** [uuid.UUID(text)], the decoding of an identifier: the hyphens are
    dropped, 32 digits must remain, and they are read in base 16. *)
Definition of_str (s : string) : outcome t :=
  let hex := remove_hyphens s in
  if Nat.eqb (String.length hex) 32 then
    match parse_hex 0 hex with
    | Some i => Return (Make i)
    | None => Raise ValueError
    end
  else Raise ValueError.

(** A string made of hexadecimal digits only. *)
Fixpoint all_hex (s : string) : bool :=
  match s with
  | EmptyString => true
  | String c s' =>
      match hex_value c with Some _ => all_hex s' | None => false end
  end.

End UUID.

(* ================================================================== *)
(** * Dynamic values: what the client hands to the batch callback *)
(* ================================================================== *)

#[local] Set Warnings "-register-all".

(** The batch result is plain decoded JSON: [None], booleans, integers,
    strings, lists and dicts.  A dict keeps its items in insertion
    order. *)
Inductive json : Type :=
| JNone
| JBool (b : bool)
| JInt (z : Z)
| JStr (s : string)
| JList (l : list json)
| JDict (items : list (string * json)).

Module Json.

Fixpoint lookup (key : string) (items : list (string * json)) : option json :=
  match items with
  | [] => None
  | (k, v) :: rest => if String.eqb k key then Some v else lookup key rest
  end.

Definition is_str (key : string) (v : json) : bool :=
  match v with JStr s => String.eqb s key | _ => false end.

Definition is_substring (key s : string) : bool :=
  match index 0 key s with Some _ => true | None => false end.

(** [key in v] for a string [key]: key membership in a dict, element
    membership in a list, substring test in a string; any other value
    is not iterable. *)
Definition contains (key : string) (v : json) : outcome bool :=
  match v with
  | JDict items =>
      Return (match lookup key items with Some _ => true | None => false end)
  | JList l => Return (existsb (is_str key) l)
  | JStr s => Return (is_substring key s)
  | _ => Raise TypeError
  end.

(** [v[key]] for a string [key]. *)
Definition getitem (v : json) (key : string) : outcome json :=
  match v with
  | JDict items => of_option (KeyError key) (lookup key items)
  | _ => Raise TypeError
  end.

Fixpoint chars (s : string) : list json :=
  match s with
  | EmptyString => []
  | String c s' => JStr (String c EmptyString) :: chars s'
  end.

(** The sequence [for x in v] walks through. *)
Definition iterate (v : json) : outcome (list json) :=
  match v with
  | JList l => Return l
  | JDict items => Return (map (fun kv => JStr (fst kv)) items)
  | JStr s => Return (chars s)
  | _ => Raise TypeError
  end.

End Json.

(* ================================================================== *)
(** * Records, requests and the log *)
(* ================================================================== *)

(** The property dict [data_object] built by [load_records]. *)
Record data_object : Type := {
  should_be_deleted : bool;
  index_id : Z;
  stage : string;
  is_divisible_by_four : bool
}.

(** [np.random.rand(32, 1)]: 32 floats. *)
Definition vector : Type := list float.

(** One [batch.add_data_object] call. *)
Record batch_object : Type := {
  bo_data_object : data_object;
  bo_vector : vector;
  bo_class_name : string;
  bo_uuid : UUID.t
}.

Inductive where_value : Type :=
| valueBoolean (b : bool)
| valueInt (i : Z)
| valueString (s : string).

(** A [where] filter dict. *)
Record where_filter : Type := {
  operator : string;
  path : list string;
  value : where_value
}.

(** A [client.query.get(class_name, properties)] query and its builders. *)
Record get_query : Type := {
  gq_class_name : string;
  gq_properties : string;
  gq_where : option where_filter;
  gq_near_object : option string;   (* the ['id'] of [near_object] *)
  gq_limit : option Z
}.

Definition query_get (class_name properties : string) : get_query :=
  {| gq_class_name := class_name; gq_properties := properties;
     gq_where := None; gq_near_object := None; gq_limit := None |}.

Definition with_where (w : where_filter) (q : get_query) : get_query :=
  {| gq_class_name := gq_class_name q; gq_properties := gq_properties q;
     gq_where := Some w; gq_near_object := gq_near_object q;
     gq_limit := gq_limit q |}.

Definition with_near_object (id : string) (q : get_query) : get_query :=
  {| gq_class_name := gq_class_name q; gq_properties := gq_properties q;
     gq_where := gq_where q; gq_near_object := Some id;
     gq_limit := gq_limit q |}.

Definition with_limit (n : Z) (q : get_query) : get_query :=
  {| gq_class_name := gq_class_name q; gq_properties := gq_properties q;
     gq_where := gq_where q; gq_near_object := gq_near_object q;
     gq_limit := Some n |}.

(** The counts read from an aggregation result:
    [['meta']['count']] and [['index_id']['count']]. *)
Record aggregate_result : Type := {
  meta_count : Z;
  index_id_count : Z
}.

Inductive level : Type := INFO | SUCCESS | WARNING | ERROR.

(** A formatted string keeps its literal text and the values that were
    interpolated into it. *)
Inductive fragment : Type :=
| Lit (text : string)
| FInt (i : Z)
| FNum (x : pynum)
| FStr (s : string)
| FJson (v : json).

Definition message : Type := list fragment.

(** What the script does to the outside world, in order: a log line, or
    a call to the store together with what the store answered. *)
Inductive event : Type :=
| Log (lvl : level) (msg : message)
| SchemaDeleteAll
| SchemaCreateClass (class_name : string)
| BatchCreate (objects : list batch_object) (results : json)
| BatchDeleteObjects (class_name : string) (w : where_filter) (dry_run : bool)
| Aggregate (class_name : string) (w : option where_filter) (r : aggregate_result)
| GetById (uuid : string) (class_name : string) (r : option data_object)
| Get (q : get_query) (r : list data_object).

(* ================================================================== *)
(** * The store and the random source *)
(* ================================================================== *)

(** Everything the script does not own: the server behind
    [weaviate.Client] and NumPy's generator.  An operation takes the
    current state of the world and gives the next state and an answer;
    nothing is assumed about the answers. *)
Class World (W : Type) : Type := {
  schema_delete_all : W -> W;
  schema_create_class : string -> W -> W;
  batch_create : list batch_object -> W -> W * json;
  batch_delete_objects : string -> where_filter -> bool -> W -> W;
  query_aggregate : string -> option where_filter -> W -> W * aggregate_result;
  data_object_get_by_id : string -> string -> W -> W * option data_object;
  query_do : get_query -> W -> W * list data_object;
  np_random_rand : W -> W * vector
}.

(* ================================================================== *)
(** * The monad of the script *)
(* ================================================================== *)

(** The state of a run: the world, and the objects waiting in
    [client.batch]. *)
Record state (W : Type) : Type := {
  world : W;
  pending : list batch_object
}.

Arguments world {W} s.
Arguments pending {W} s.
Arguments Build_state {W} world pending.

(** What a run of a piece of code leaves behind. *)
Record run (W A : Type) : Type := {
  events : list event;
  final : state W;
  result : outcome A
}.

Arguments events {W A} r.
Arguments final {W A} r.
Arguments result {W A} r.
Arguments Build_run {W A} events final result.

Definition M (W A : Type) : Type := state W -> run W A.

Definition ret {W A} (a : A) : M W A :=
  fun s => {| events := []; final := s; result := Return a |}.

Definition bind {W A B} (m : M W A) (k : A -> M W B) : M W B :=
  fun s =>
    let r := m s in
    match result r with
    | Return a =>
        let r' := k a (final r) in
        {| events := events r ++ events r'; final := final r';
           result := result r' |}
    | Exit c => {| events := events r; final := final r; result := Exit c |}
    | Raise e => {| events := events r; final := final r; result := Raise e |}
    end.

Declare Scope py_scope.
Delimit Scope py_scope with py.
Notation "x <- m ;; k" := (bind m (fun x => k))
  (at level 61, m at next level, right associativity) : py_scope.
Notation "m ;; k" := (bind m (fun _ => k))
  (at level 61, right associativity) : py_scope.
Local Open Scope py_scope.

(** A pure computation that may raise. *)
Definition lift {W A} (o : outcome A) : M W A :=
  fun s => {| events := []; final := s; result := o |}.

Definition emit {W} (e : event) : M W unit :=
  fun s => {| events := [e]; final := s; result := Return tt |}.

(** [sys.exit(code)] *)
Definition sys_exit {W A} (code : Z) : M W A :=
  fun s => {| events := []; final := s; result := Exit code |}.

(** [for x in xs: body(x)] *)
Fixpoint for_each {W A} (xs : list A) (body : A -> M W unit) : M W unit :=
  match xs with
  | [] => ret tt
  | x :: rest => body x ;; for_each rest body
  end.

(** [if c: body] *)
Definition when {W} (c : bool) (body : M W unit) : M W unit :=
  if c then body else ret tt.

(** [with ...: body] leaving through [cleanup]: the cleanup runs however
    the body ended, and the body's exit or exception goes on afterwards
    unless the cleanup itself fails. *)
Definition with_cleanup {W} (body cleanup : M W unit) : M W unit :=
  fun s =>
    let r := body s in
    let r' := cleanup (final r) in
    {| events := events r ++ events r'; final := final r';
       result := match result r' with
                 | Return _ => result r
                 | failed => failed
                 end |}.

(* ================================================================== *)
(** * The script *)
(* ================================================================== *)

Section Script.

Context {W : Type} `{World W}.

Local Abbreviation M := (M W).

(** ** The client, as the script calls it *)

Definition call {A} (op : W -> W * A) (ev : A -> event) : M A :=
  fun s =>
    let '(w, a) := op (world s) in
    {| events := [ev a];
       final := {| world := w; pending := pending s |};
       result := Return a |}.

Definition command (op : W -> W) (ev : event) : M unit :=
  call (fun w => (op w, tt)) (fun _ => ev).

Definition logger (lvl : level) (msg : message) : M unit :=
  emit (Log lvl msg).

(** [np.random.rand(32, 1)] *)
Definition np_rand : M vector :=
  fun s =>
    let '(w, v) := np_random_rand (world s) in
    {| events := [];
       final := {| world := w; pending := pending s |};
       result := Return v |}.

(** [client.batch]: the objects of [pending] are sent together and the
    configured callback receives the result. *)
Definition batch_flush (callback : json -> M unit) : M unit :=
  fun s =>
    match pending s with
    | [] => ret tt s
    | objects =>
        (results <- (fun s' =>
            let '(w, results) := batch_create objects (world s') in
            {| events := [BatchCreate objects results];
               final := {| world := w; pending := [] |};
               result := Return results |}) ;;
         callback results) s
    end.

(** [batch.add_data_object(...)] under
    [configure(batch_size=..., callback=...)]: the object is queued and
    a full batch is sent at once. *)
Definition batch_add_data_object (batch_size : nat) (callback : json -> M unit)
    (o : batch_object) : M unit :=
  fun s =>
    let queued := {| world := world s; pending := pending s ++ [o] |} in
    if Nat.leb batch_size (List.length (pending queued))
    then batch_flush callback queued
    else ret tt queued.

(** ** [reset_schema] (lines 11-45) *)
Definition reset_schema (class_names : list string) : M unit :=
  command schema_delete_all SchemaDeleteAll ;;
  for_each class_names (fun class_name =>
    command (schema_create_class class_name) (SchemaCreateClass class_name)).

(** ** [handle_errors] (lines 47-64) *)

(** ['result' in result and 'errors' in result['result'] and
    'error' in result['result']['errors']], left to right. *)
Definition has_error_list (result : json) : outcome bool :=
  obind (Json.contains "result" result) (fun c1 =>
    if c1 then
      obind (Json.getitem result "result") (fun r =>
      obind (Json.contains "errors" r) (fun c2 =>
        if c2 then
          obind (Json.getitem r "errors") (fun es => Json.contains "error" es)
        else Return false))
    else Return false).

Definition error_list (result : json) : outcome json :=
  obind (Json.getitem result "result") (fun r =>
  obind (Json.getitem r "errors") (fun es => Json.getitem es "error")).

Definition handle_errors (results : json) : M unit :=
  match results with
  | JNone => ret tt
  | _ =>
      items <- lift (Json.iterate results) ;;
      for_each items (fun result =>
        c <- lift (has_error_list result) ;;
        when c (
          errors <- lift (error_list result) ;;
          messages <- lift (Json.iterate errors) ;;
          for_each messages (fun message =>
            text <- lift (Json.getitem message "message") ;;
            logger ERROR [FJson text])))
  end.

(** ** [load_records] (lines 66-87) *)

(** [(end - start) * 0.1 + start] *)
Definition delete_threshold (start end_ : Z) : outcome pynum :=
  obind (PyNum.mul (PInt (end_ - start)) (PFloat lit_0_1)) (fun x =>
    PyNum.add x (PInt start)).

Definition make_data_object (threshold : pynum) (stage_label : string) (i : Z)
    : data_object :=
  {| should_be_deleted := PyNum.lt (PInt i) threshold;
     index_id := i;
     stage := stage_label;
     is_divisible_by_four := (i mod 4 =? 0) |}.

(** The body of the loop, lines 72-86. *)
Definition load_record (class_name : string) (end_ : Z) (stage_label : string)
    (threshold : pynum) (i : Z) : M unit :=
  when (i mod 10000 =? 0)
    (logger INFO [Lit "Class: "; FStr class_name;
                  Lit " - writing record "; FInt i; Lit "/"; FInt end_]) ;;
  let data := make_data_object threshold stage_label i in
  v <- np_rand ;;
  u <- lift (UUID.of_int i) ;;
  batch_add_data_object 100 handle_errors
    {| bo_data_object := data; bo_vector := v;
       bo_class_name := class_name; bo_uuid := u |}.

Definition load_records (class_name : string) (start end_ : Z)
    (stage_label : string) : M unit :=
  with_cleanup
    (threshold <- lift (delete_threshold start end_) ;;
     for_each (py_range start end_)
       (load_record class_name end_ stage_label threshold))
    (batch_flush handle_errors) ;;
  logger INFO [Lit "Finished writing "; FInt (end_ - start); Lit " records"].

(** ** [delete_records] (lines 89-99) *)
Definition delete_records (class_name : string) : M unit :=
  let w := {| operator := "Equal"; path := ["should_be_deleted"%string];
              value := valueBoolean true |} in
  command (batch_delete_objects class_name w false)
          (BatchDeleteObjects class_name w false).

(** ** [fatal] and [success] (lines 101-106) *)
Definition fatal (msg : message) : M unit :=
  logger ERROR msg ;;
  sys_exit 1.

Definition success (msg : message) : M unit :=
  logger SUCCESS msg.

(** ** [validate_dataset] (lines 108-149) *)

Definition got_wanted (class_name : string) (got : Z) (what : string)
    (wanted : pynum) : message :=
  [FStr class_name; Lit ": got "; FInt got; Lit what; FNum wanted].

(** One [if got != wanted: fatal(...) else: success(...)]. *)
Definition check_count (class_name : string) (got : Z) (what : string)
    (wanted : pynum) : M unit :=
  if PyNum.ne (PInt got) wanted
  then fatal (got_wanted class_name got what wanted)
  else success (got_wanted class_name got what wanted).

Definition not_divisible_by_four : where_filter :=
  {| operator := "Equal"; path := ["is_divisible_by_four"%string];
     value := valueBoolean false |}.

(** [expected_count * 3 / 4]: a product, then a true division. *)
Definition expected_filtered_count (expected_count : pynum) : outcome pynum :=
  obind (PyNum.mul expected_count (PInt 3)) (fun x =>
    PyNum.truediv x (PInt 4)).

Definition validate_dataset (class_name : string) (expected_count : pynum)
    : M unit :=
  expected_filtered_count <- lift (expected_filtered_count expected_count) ;;
  r <- call (query_aggregate class_name None) (Aggregate class_name None) ;;
  logger INFO [Lit "Aggregation without filters:"] ;;
  let total_count := meta_count r in
  let prop_count := index_id_count r in
  check_count class_name total_count " objects, wanted " expected_count ;;
  check_count class_name prop_count " props, wanted " expected_count ;;
  logger INFO [Lit "Aggregation with filters"] ;;
  r <- call (query_aggregate class_name (Some not_divisible_by_four))
            (Aggregate class_name (Some not_divisible_by_four)) ;;
  let total_count := meta_count r in
  let prop_count := index_id_count r in
  check_count class_name total_count " objects, wanted " expected_filtered_count ;;
  check_count class_name prop_count " props, wanted " expected_filtered_count.

(** ** [validate_stage] (lines 151-230) *)

(** [str(uuid.UUID(int=i))] *)
Definition uuid_str (i : Z) : outcome string :=
  obind (UUID.of_int i) (fun u => Return (UUID.to_str u)).

(** [int((end - start) * 0.1 + start)] *)
Definition start_without_deleted (start end_ : Z) : outcome Z :=
  obind (delete_threshold start end_) PyNum.int.

Definition limit : Z := 20.

Definition index_id_equal (i : Z) : where_filter :=
  {| operator := "Equal"; path := ["index_id"%string]; value := valueInt i |}.

Definition stage_equal (stage_label : string) : where_filter :=
  {| operator := "Equal"; path := ["stage"%string];
     value := valueString stage_label |}.

(** Lines 155-161: retrieve the object by its uuid. *)
Definition check_by_uuid (class_name : string) (end_ i : Z) : M unit :=
  id <- lift (uuid_str i) ;;
  o <- call (data_object_get_by_id id class_name) (GetById id class_name) ;;
  found <- lift (of_option TypeError o) ;;
  let got := index_id found in
  when (negb (got =? i))
    (id' <- lift (uuid_str i) ;;
     fatal [Lit "object "; FStr id'; Lit " has index_id prop "; FInt got;
            Lit " instead of "; FInt i]) ;;
  when (i mod 10000 =? 0)
    (success [Lit "validated "; FInt i; Lit "/"; FInt end_;
              Lit " objects using their uuid"]).

(** Lines 164-181: retrieve the object with a filter on [index_id]. *)
Definition check_by_filter (class_name : string) (end_ i : Z) : M unit :=
  let q := with_where (index_id_equal i) (query_get class_name "index_id") in
  r <- call (query_do q) (Get q) ;;
  first <- lift (of_option IndexError (nth_error r 0)) ;;
  let got := index_id first in
  when (negb (got =? i))
    (fatal [Lit "object has index_id prop "; FInt got;
            Lit " instead of "; FInt i]) ;;
  when (i mod 10000 =? 0)
    (success [Lit "validated "; FInt i; Lit "/"; FInt end_;
              Lit " objects using a filter"]).

Definition near_query (class_name id : string) : get_query :=
  with_limit limit (with_near_object id (query_get class_name "index_id")).

Definition near_query_filtered (class_name id stage_label : string) : get_query :=
  with_limit limit
    (with_where (stage_equal stage_label)
       (with_near_object id (query_get class_name "index_id"))).

(** The tail shared by both vector searches: lines 198-202, 226-230. *)
Definition check_result_len (r : list data_object) (end_ i : Z) : M unit :=
  let result_len := Z.of_nat (List.length r) in
  when (negb (result_len =? limit))
    (fatal [Lit "vector search has result len "; FInt result_len;
            Lit " wanted "; FInt limit]) ;;
  when (i mod 10000 =? 0)
    (success [Lit "validated "; FInt i; Lit "/"; FInt end_;
              Lit " vector searches"]).

(** Lines 185-202: vector search without filter. *)
Definition check_vector_search (class_name : string) (end_ i : Z) : M unit :=
  id <- lift (uuid_str i) ;;
  let q := near_query class_name id in
  r <- call (query_do q) (Get q) ;;
  check_result_len r end_ i.

(** Lines 206-230: vector search with a filter on the stage. *)
Definition check_vector_search_filtered (class_name stage_label : string)
    (end_ i : Z) : M unit :=
  id <- lift (uuid_str i) ;;
  let q := near_query_filtered class_name id stage_label in
  r <- call (query_do q) (Get q) ;;
  check_result_len r end_ i.

Definition search_note : message :=
  [Lit "Note: This test currently does not validate the quality (e.g. recall) of the results, only that it works"].

Definition validate_stage (class_name : string) (start end_ : Z)
    (stage_label : string) : M unit :=
  first <- lift (start_without_deleted start end_) ;;
  logger INFO [Lit "Retrieve objects using their uuid:"] ;;
  for_each (py_range first end_) (check_by_uuid class_name end_) ;;
  logger INFO [Lit "Retrieve objects using a filter on a unique prop"] ;;
  for_each (py_range first end_) (check_by_filter class_name end_) ;;
  logger INFO [Lit "Perform vector search without filter"] ;;
  logger INFO search_note ;;
  for_each (py_range first end_) (check_vector_search class_name end_) ;;
  logger INFO [Lit "Perform vector search with filter"] ;;
  logger INFO search_note ;;
  for_each (py_range first end_)
    (check_vector_search_filtered class_name stage_label end_).

(** ** The module-level constants (lines 235-242) *)

Definition class_names : list string := ["Class_A"; "Class_B"]%string.
Definition objects_per_stage : Z := 50000.
Definition start_stage_1 : Z := 0.
Definition end_stage_1 : Z := objects_per_stage.
Definition expected_count_stage_1 : outcome pynum :=
  PyNum.mul (PFloat lit_0_9) (PInt end_stage_1).
Definition start_stage_2 : Z := end_stage_1.
Definition end_stage_2 : Z := start_stage_2 + objects_per_stage.
Definition expected_count_stage_2 : outcome pynum :=
  PyNum.mul (PFloat lit_0_9) (PInt end_stage_2).

Definition skipped : M unit :=
  logger WARNING [Lit "SKIPPED - WAITING FOR BACKUP IMPLEMENTATION TO COMPLETE"].

Definition n_classes : Z := Z.of_nat (List.length class_names).

(** ** The script body (lines 233-301) *)
Definition main : M unit :=
  expected_1 <- lift expected_count_stage_1 ;;
  expected_2 <- lift expected_count_stage_2 ;;
  logger INFO [Lit "Step 0, reset everything, import schema"] ;;
  reset_schema class_names ;;
  logger INFO [Lit "Step 1, import first half of objects across ";
               FInt n_classes; Lit " classes"] ;;
  for_each class_names (fun class_name =>
    load_records class_name start_stage_1 end_stage_1 "stage_1") ;;
  logger INFO [Lit "Step 2, delete 10% of objects to make sure deletes are covered"] ;;
  for_each class_names delete_records ;;
  logger INFO [Lit "Step 3, run control test on original instance validating all assumptions at stage 1"] ;;
  for_each class_names (fun class_name =>
    logger INFO [FStr class_name; Lit ":"] ;;
    validate_dataset class_name expected_1 ;;
    validate_stage class_name start_stage_1 end_stage_1 "stage_1") ;;
  logger INFO [Lit "Step 4, create backup of current instance including all classes"] ;;
  skipped ;;
  logger INFO [Lit "Step 5, import second half of objects across ";
               FInt n_classes; Lit " classes"] ;;
  for_each class_names (fun class_name =>
    load_records class_name start_stage_2 end_stage_2 "stage_2") ;;
  logger INFO [Lit "Step 6, delete 10% of objects to make sure deletes are covered"] ;;
  for_each class_names delete_records ;;
  logger INFO [Lit "Step 7, validate both stages on control instance"] ;;
  for_each class_names (fun class_name =>
    logger INFO [FStr class_name; Lit " - Overall:"] ;;
    validate_dataset class_name expected_2) ;;
  for_each class_names (fun class_name =>
    logger INFO [FStr class_name; Lit " - Stage 1:"] ;;
    validate_stage class_name start_stage_1 end_stage_1 "stage_1") ;;
  for_each class_names (fun class_name =>
    logger INFO [FStr class_name; Lit " - Stage 2:"] ;;
    validate_stage class_name start_stage_2 end_stage_2 "stage_2") ;;
  logger INFO [Lit "Step 8, delete all classes"] ;;
  command schema_delete_all SchemaDeleteAll ;;
  logger INFO [Lit "Step 9, restore backup at half-way mark"] ;;
  skipped ;;
  logger INFO [Lit "Step 10, run test and make sure results are same as on original instance at stage 1"] ;;
  skipped ;;
  logger INFO [Lit "Step 11, import second half of objects"] ;;
  skipped ;;
  logger INFO [Lit "Step 12, delete 10% of objects of new import"] ;;
  skipped ;;
  logger INFO [Lit "Step 13, run test and make sure results are same as on original instance at stage 2"] ;;
  skipped.

End Script.


(* ================================================================== *)
(** * Reading a trace *)
(* ================================================================== *)

(** The objects that went to the store, in the order they were sent. *)
Definition sent_objects (evs : list event) : list batch_object :=
  flat_map (fun e => match e with BatchCreate objects _ => objects | _ => [] end) evs.

(** The records a load wrote. *)
Definition loaded {W A} (r : run W A) : list batch_object :=
  sent_objects (events r).

(** What one queued object is made of, apart from its random vector. *)
Definition content (o : batch_object) : data_object * string * UUID.t :=
  (bo_data_object o, bo_class_name o, bo_uuid o).


(** The filter lookups of a trace: the [Get] queries without a
    [near_object]. *)
Definition filter_lookups (evs : list event) : list get_query :=
  flat_map (fun e =>
    match e with
    | Get q _ => match gq_near_object q with Some _ => [] | None => [q] end
    | _ => []
    end) evs.

(** The indices the per-record checks looked at: an identity lookup
    names its index through the identifier, a filter lookup through the
    filter value. *)
Definition checked_by_uuid (evs : list event) : list string :=
  flat_map (fun e => match e with GetById id _ _ => [id] | _ => [] end) evs.

Definition count_true {A} (p : A -> bool) (l : list A) : Z :=
  Z.of_nat (List.length (filter p l)).

Definition marked (o : batch_object) : bool :=
  should_be_deleted (bo_data_object o).

Definition divisible (o : batch_object) : bool :=
  is_divisible_by_four (bo_data_object o).


Definition is_search (q : get_query) : bool :=
  match gq_near_object q with Some _ => true | None => false end.

(** The log lines of a trace. *)
Definition log_lines (evs : list event) : list message :=
  flat_map (fun e => match e with Log _ msg => [msg] | _ => [] end) evs.

Definition fragment_eqb (a b : fragment) : bool :=
  match a, b with
  | Lit x, Lit y => String.eqb x y
  | FInt x, FInt y => x =? y
  | FStr x, FStr y => String.eqb x y
  | _, _ => false
  end.

(** Does some log line of the trace carry this integer or this string? *)
Definition logs_mention (f : fragment) (evs : list event) : bool :=
  existsb (existsb (fragment_eqb f)) (log_lines evs).

(** What [load_records] is meant to queue for index [i]. *)
Definition record_for (class_name stage_label : string) (threshold : pynum)
    (i : Z) : data_object * string * UUID.t :=
  (make_data_object threshold stage_label i, class_name, UUID.Make i).

(** The failure messages of a batch result, read off its shape:
    [result -> errors -> error -> message] of every item. *)
Module BatchResult.
Import Json.

Definition item_errors (item : json) : list json :=
  match item with
  | JDict kv =>
      match lookup "result" kv with
      | Some (JDict r) =>
          match lookup "errors" r with
          | Some (JDict es) =>
              match lookup "error" es with
              | Some (JList ms) => ms
              | _ => []
              end
          | _ => []
          end
      | _ => []
      end
  | _ => []
  end.

Definition message_text (m : json) : list json :=
  match m with
  | JDict kv => match lookup "message" kv with Some t => [t] | None => [] end
  | _ => []
  end.

Definition failure_messages (results : json) : list json :=
  match results with
  | JList items =>
      flat_map (fun item => flat_map message_text (item_errors item)) items
  | _ => []
  end.

(** The shape the client documents for a batch result: [None], or a
    list of dicts in which [result], [errors] and [error], where
    present, are a dict, a dict and a list of dicts with a
    [message]. *)
Definition wf_message (m : json) : bool :=
  match m with
  | JDict kv => match lookup "message" kv with Some _ => true | None => false end
  | _ => false
  end.

Definition wf_item (item : json) : bool :=
  match item with
  | JDict kv =>
      match lookup "result" kv with
      | None => true
      | Some (JDict r) =>
          match lookup "errors" r with
          | None => true
          | Some (JDict es) =>
              match lookup "error" es with
              | None => true
              | Some (JList ms) => forallb wf_message ms
              | Some _ => false
              end
          | Some _ => false
          end
      | Some _ => false
      end
  | _ => false
  end.

Definition well_formed (results : json) : bool :=
  match results with
  | JNone => true
  | JList items => forallb wf_item items
  | _ => false
  end.

End BatchResult.

(* ================================================================== *)
(** * Two stores to run the script against *)
(* ================================================================== *)

(** An in-memory store that does what the script expects of the server:
    it keeps what it is sent, deletes what a filter selects and answers
    queries from what it holds. *)
Module MemStore.

Record t : Type := { objects : list batch_object; draws : Z }.

Definition empty : t := {| objects := []; draws := 0 |}.

Definition matches (w : where_filter) (o : data_object) : bool :=
  match path w, value w with
  | [p], valueBoolean b =>
      if String.eqb p "should_be_deleted" then Bool.eqb (should_be_deleted o) b
      else if String.eqb p "is_divisible_by_four"
           then Bool.eqb (is_divisible_by_four o) b
           else false
  | [p], valueInt i => String.eqb p "index_id" && (index_id o =? i)
  | [p], valueString s => String.eqb p "stage" && String.eqb (stage o) s
  | _, _ => false
  end.

Definition selected (class_name : string) (w : option where_filter)
    (o : batch_object) : bool :=
  String.eqb (bo_class_name o) class_name &&
  match w with
  | Some w => matches w (bo_data_object o)
  | None => true
  end.

Definition has_id (id class_name : string) (o : batch_object) : bool :=
  String.eqb (UUID.to_str (bo_uuid o)) id &&
  String.eqb (bo_class_name o) class_name.

Definition answer (q : get_query) (st : t) : list data_object :=
  let found :=
    map bo_data_object
      (filter (selected (gq_class_name q) (gq_where q)) (objects st)) in
  let known :=
    match gq_near_object q with
    | Some id => existsb (has_id id (gq_class_name q)) (objects st)
    | None => true
    end in
  if known then
    match gq_limit q with
    | Some n => firstn (Z.to_nat n) found
    | None => found
    end
  else [].

#[global] Instance instance : World t := {|
  schema_delete_all st := {| objects := []; draws := draws st |};
  schema_create_class _ st := st;
  batch_create objs st :=
    ({| objects := objects st ++ objs; draws := draws st |},
     JList (map (fun _ => JDict [("result"%string, JDict [])]) objs));
  batch_delete_objects class_name w dry_run st :=
    if dry_run then st
    else {| objects :=
              filter (fun o => negb (selected class_name (Some w) o)) (objects st);
            draws := draws st |};
  query_aggregate class_name w st :=
    let n := Z.of_nat (List.length (filter (selected class_name w) (objects st))) in
    (st, {| meta_count := n; index_id_count := n |});
  data_object_get_by_id id class_name st :=
    (st, option_map bo_data_object (find (has_id id class_name) (objects st)));
  query_do q st := (st, answer q st);
  np_random_rand st :=
    ({| objects := objects st; draws := draws st + 1 |},
     repeat (S754_zero false) 32)
|}.

Definition start : state t := {| world := empty; pending := [] |}.

End MemStore.

(** A store without memory that answers every lookup with the record
    asked for, every vector search with a fixed number of results and
    every aggregation with fixed counts; each object of a batch is
    reported with the given error messages. *)
Module EchoStore.

Record config : Type := {
  search_results : nat;
  write_errors : list string;
  total : Z;
  filtered : Z
}.

Definition echo (i : Z) : data_object :=
  {| should_be_deleted := false; index_id := i; stage := "";
     is_divisible_by_four := (i mod 4 =? 0) |}.

Definition decode (id : string) : option data_object :=
  match UUID.of_str id with
  | Return u => Some (echo (UUID.int u))
  | _ => None
  end.

Definition failed (msgs : list string) : json :=
  JDict [("result"%string,
          JDict [("errors"%string,
                  JDict [("error"%string,
                          JList (map (fun m => JDict [("message"%string, JStr m)])
                                     msgs))])])].

Definition answer (c : config) (q : get_query) : list data_object :=
  match gq_near_object q, gq_where q with
  | Some _, _ => repeat (echo 0) (search_results c)
  | None, Some w =>
      match value w with valueInt i => [echo i] | _ => [] end
  | None, None => []
  end.

Definition instance (c : config) : World unit := {|
  schema_delete_all st := st;
  schema_create_class _ st := st;
  batch_create objs st := (st, JList (map (fun _ => failed (write_errors c)) objs));
  batch_delete_objects _ _ _ st := st;
  query_aggregate _ w st :=
    (st, match w with
         | None => {| meta_count := total c; index_id_count := total c |}
         | Some _ => {| meta_count := filtered c; index_id_count := filtered c |}
         end);
  data_object_get_by_id id _ st := (st, decode id);
  query_do q st := (st, answer c q);
  np_random_rand st := (st, repeat (S754_zero false) 32)
|}.

Definition start : state unit := {| world := tt; pending := [] |}.

End EchoStore.

(* ================================================================== *)
(** * Sample runs *)
(* ================================================================== *)

Module Samples.

Definition zeros : vector := repeat (S754_zero false) 32.

(** The object [load_records "C" 0 15 "s"] queues for index [i] when
    the random source of [MemStore] is used: the two lowest indices are
    marked. *)
Definition object (i : Z) : batch_object :=
  {| bo_data_object :=
       {| should_be_deleted := (i <? 2); index_id := i; stage := "s";
          is_divisible_by_four := (i mod 4 =? 0) |};
     bo_vector := zeros;
     bo_class_name := "C";
     bo_uuid := UUID.Make i |}.

(** Fifteen records, a length that is not a multiple of ten. *)
Abbreviation load_15 :=
  (load_records "C" 0 15 "s" MemStore.start).

(** Eight records, a length divisible by four. *)
Abbreviation load_8 :=
  (load_records "C" 0 8 "s" MemStore.start).

(** Fifteen records loaded, the marked ones deleted, the stage
    validated. *)
Abbreviation validate_15 :=
  ((load_records "C" 0 15 "s" ;; delete_records "C" ;;
    validate_stage "C" 0 15 "s")%py MemStore.start).

Definition quiet_echo : EchoStore.config :=
  {| EchoStore.search_results := 20; EchoStore.write_errors := [];
     EchoStore.total := 8; EchoStore.filtered := 6 |}.

(** Every vector search comes back one result short. *)
Definition short_echo : EchoStore.config :=
  {| EchoStore.search_results := 19; EchoStore.write_errors := [];
     EchoStore.total := 8; EchoStore.filtered := 6 |}.

(** Every write is reported as failed. *)
Definition failing_echo : EchoStore.config :=
  {| EchoStore.search_results := 20;
     EchoStore.write_errors := ["boom"; "bang"]%string;
     EchoStore.total := 8; EchoStore.filtered := 6 |}.

(** Five live records, three of them not divisible by four: the
    filtered count is the truncation of [5 * 3 / 4]. *)
Definition five_echo : EchoStore.config :=
  {| EchoStore.search_results := 20; EchoStore.write_errors := [];
     EchoStore.total := 5; EchoStore.filtered := 3 |}.

End Samples.

(* ================================================================== *)
(** * The vocabulary of the statements *)
(* ================================================================== *)

(** A computation that leaves the state alone and sends nothing. *)
Definition quiet {W A} (m : M W A) : Prop :=
  forall s, final (m s) = s /\ sent_objects (events (m s)) = [].

(** [delivered r s l]: running from [s], the objects sent together with
    those still waiting are what was waiting in [s] followed by [l]. *)
Definition delivered {W A} (r : run W A) (s : state W) (l : list batch_object)
    : Prop :=
  sent_objects (events r) ++ pending (final r) = pending s ++ l.

(** The indices [uuid.UUID(int=i)] accepts. *)
Definition uuid_ok (i : Z) : Prop := 0 <= i < 2 ^ 128.

Definition by_four (i : Z) : bool := i mod 4 =? 0.

Definition log_error (t : json) : event := Log ERROR [FJson t].

(** [l1] is an initial segment of [l2]. *)
Definition list_prefix {X} (l1 l2 : list X) : Prop := exists rest, l2 = l1 ++ rest.

(** [tracks obs r expected]: what [obs] reads off the trace of [r] is an
    initial segment of [expected], and all of it when [r] returned. *)
Definition tracks {W A X} (obs : list event -> list X) (r : run W A)
    (expected : list X) : Prop :=
  list_prefix (obs (events r)) expected /\
  (forall a, result r = Return a -> obs (events r) = expected).

(** A call whose answer the per-record checks of [validate_stage]
    reject: a record with another [index_id] than the one asked for, or a
    vector search with another number of results than [limit]. *)
Definition stage_mismatch (e : event) : bool :=
  match e with
  | GetById id _ (Some o) =>
      match UUID.of_str id with
      | Return u => negb (index_id o =? UUID.int u)
      | _ => false
      end
  | Get q r =>
      if is_search q then negb (Z.of_nat (List.length r) =? limit)
      else match gq_where q, r with
           | Some w, o :: _ =>
               match value w with
               | valueInt i => negb (index_id o =? i)
               | _ => false
               end
           | _, _ => false
           end
  | _ => false
  end.

Definition clean (evs : list event) : Prop :=
  existsb stage_mismatch evs = false.

(** The message [validate_stage] logs for the call it rejects. *)
Inductive fatal_report : event -> message -> Prop :=
| report_by_uuid (i : Z) (id class_name : string) (o : data_object) :
    uuid_str i = Return id ->
    index_id o <> i ->
    fatal_report (GetById id class_name (Some o))
      [Lit "object "; FStr id; Lit " has index_id prop "; FInt (index_id o);
       Lit " instead of "; FInt i]
| report_by_filter (i : Z) (class_name : string) (o : data_object)
    (rest : list data_object) :
    index_id o <> i ->
    fatal_report
      (Get (with_where (index_id_equal i) (query_get class_name "index_id"))
           (o :: rest))
      [Lit "object has index_id prop "; FInt (index_id o);
       Lit " instead of "; FInt i]
| report_search (q : get_query) (r : list data_object) :
    is_search q = true ->
    gq_limit q = Some limit ->
    Z.of_nat (List.length r) <> limit ->
    fatal_report (Get q r)
      [Lit "vector search has result len "; FInt (Z.of_nat (List.length r));
       Lit " wanted "; FInt limit].

(** How a run of per-record checks can end: without having seen a
    rejected answer and without [sys.exit], or at the first rejected
    answer, with its message logged last and exit status 1. *)
Definition verdict {W A} (r : run W A) : Prop :=
  (clean (events r) /\ forall c, result r <> Exit c) \/
  (result r = Exit 1 /\
   exists evs e msg,
     events r = evs ++ [e; Log ERROR msg] /\
     clean evs /\ stage_mismatch e = true /\ fatal_report e msg).




(** An aggregation one of whose two counts is not the wanted number. *)
Definition wrong_count (wanted : pynum) (a : aggregate_result) : bool :=
  PyNum.ne (PInt (meta_count a)) wanted ||
  PyNum.ne (PInt (index_id_count a)) wanted.

(** What [validate_dataset] wants of an aggregation: the expected count
    without a filter, the expected filtered count with one. *)
Definition wanted_count (expected filtered : pynum)
    (f : option where_filter) : pynum :=
  match f with None => expected | Some _ => filtered end.

Definition dataset_mismatch (expected filtered : pynum) (e : event) : bool :=
  match e with
  | Aggregate _ f a => wrong_count (wanted_count expected filtered f) a
  | _ => false
  end.

(** The message [validate_dataset] logs for the aggregation it rejects:
    the object count is looked at first, the property count second. *)
Inductive count_report (class_name : string) (wanted : pynum)
    (a : aggregate_result) : message -> Prop :=
| report_objects :
    PyNum.ne (PInt (meta_count a)) wanted = true ->
    count_report class_name wanted a
      (got_wanted class_name (meta_count a) " objects, wanted " wanted)
| report_props :
    PyNum.ne (PInt (meta_count a)) wanted = false ->
    PyNum.ne (PInt (index_id_count a)) wanted = true ->
    count_report class_name wanted a
      (got_wanted class_name (index_id_count a) " props, wanted " wanted).

Definition only_logs (evs : list event) : Prop :=
  forall e, In e evs -> exists l msg, e = Log l msg.

(** How [validate_dataset] can end: returning without having seen a
    wrong count, or at the first aggregation with a wrong
    count, with its message logged last and exit status 1. *)
Definition dataset_verdict {W} (class_name : string)
    (expected filtered : pynum) (r : run W unit) : Prop :=
  (existsb (dataset_mismatch expected filtered) (events r) = false /\
   result r = Return tt) \/
  (result r = Exit 1 /\
   exists evs f a logs msg,
     events r = evs ++ Aggregate class_name f a :: logs ++ [Log ERROR msg] /\
     existsb (dataset_mismatch expected filtered) evs = false /\
     only_logs logs /\
     wrong_count (wanted_count expected filtered f) a = true /\
     count_report class_name (wanted_count expected filtered f) a msg).

(* ================================================================== *)
(** * The checkpoints of the script *)
(* ================================================================== *)

(** The count a line of [validate_dataset] says it wanted: the lines
    [f"{class_name}: got {n} objects, wanted {w}"] and
    [f"{class_name}: got {n} props, wanted {w}"], whether [success] or
    [fatal] logged them. *)
Definition wanted_of (e : event) : list (string * string * pynum) :=
  match e with
  | Log _ [FStr class_name; Lit got; FInt _; Lit what; FNum w] =>
      if String.eqb got ": got " then [(class_name, what, w)] else []
  | _ => []
  end.

Definition wanted (evs : list event) : list (string * string * pynum) :=
  flat_map wanted_of evs.







(* ================================================================== *)
(** * The requests of a run *)
(* ================================================================== *)

(** A call to the store without its answer. *)
Inductive request : Type :=
| AskSchemaDeleteAll
| AskSchemaCreateClass (class_name : string)
| AskBatchCreate (objects : list batch_object)
| AskBatchDeleteObjects (class_name : string) (w : where_filter)
    (dry_run : bool)
| AskAggregate (class_name : string) (w : option where_filter)
| AskGetById (uuid class_name : string)
| AskGet (q : get_query).

Definition request_of (e : event) : list request :=
  match e with
  | Log _ _ => []
  | SchemaDeleteAll => [AskSchemaDeleteAll]
  | SchemaCreateClass class_name => [AskSchemaCreateClass class_name]
  | BatchCreate objects _ => [AskBatchCreate objects]
  | BatchDeleteObjects class_name w dry_run =>
      [AskBatchDeleteObjects class_name w dry_run]
  | Aggregate class_name w _ => [AskAggregate class_name w]
  | GetById uuid class_name _ => [AskGetById uuid class_name]
  | Get q _ => [AskGet q]
  end.

(** The calls a run made to the store, in order. *)
Definition requests (evs : list event) : list request :=
  flat_map request_of evs.


(** An answer the validators cannot read, with the exception reading it
    raises: no object for an identifier, no row for a filter on
    [index_id]. *)
Definition unreadable (e : event) : option exn :=
  match e with
  | GetById _ _ None => Some TypeError
  | Get q [] => if is_search q then None else Some IndexError
  | _ => None
  end.

(** A computation that never calls [sys.exit]. *)
Definition never_exits {W A} (m : M W A) : Prop :=
  forall s c, result (m s) <> Exit c.

(** A computation whose only exit status is 1. *)
Definition exits_with_1 {W A} (m : M W A) : Prop :=
  forall s c, result (m s) = Exit c -> c = 1.

(** An unreadable answer in the trace of [r] is its last event, and [r]
    ended with the exception reading it raises. *)
Definition stops_at_unreadable {W A} (r : run W A) : Prop :=
  forall e x, unreadable e = Some x -> In e (events r) ->
    result r = Raise x /\ exists evs, events r = evs ++ [e].

(* ================================================================== *)
(** * The literals *)
(* ================================================================== *)

Example lit_0_1_is_nearest : int_truediv 1 10 = Some lit_0_1.
Proof. vm_compute. reflexivity. Qed.

Example lit_0_9_is_nearest : int_truediv 9 10 = Some lit_0_9.
Proof. vm_compute. reflexivity. Qed.

(* ================================================================== *)
(** * Identifiers round-trip *)
(* ================================================================== *)

Module UUIDFacts.
Import UUID.


Lemma hex_value_digit d : 0 <= d < 16 -> hex_value (hex_digit d) = Some d.
Proof.
  intros Hd.
  assert (Hc : d = 0 \/ d = 1 \/ d = 2 \/ d = 3 \/ d = 4 \/ d = 5 \/ d = 6
               \/ d = 7 \/ d = 8 \/ d = 9 \/ d = 10 \/ d = 11 \/ d = 12
               \/ d = 13 \/ d = 14 \/ d = 15) by lia.
  repeat (destruct Hc as [-> | Hc]; [reflexivity |]).
  subst d. reflexivity.
Qed.

Lemma parse_hex_fixed n : forall acc z,
  parse_hex acc (hex_fixed n z) = Some (acc * 16 ^ Z.of_nat n + z mod 16 ^ Z.of_nat n).
Proof.
  induction n as [| k IH]; intros acc z.
  - simpl. rewrite Z.mod_1_r. f_equal. lia.
  - cbn [hex_fixed parse_hex].
    rewrite hex_value_digit by (apply Z.mod_pos_bound; lia).
    rewrite IH. f_equal.
    rewrite Nat2Z.inj_succ, Z.pow_succ_r by lia.
    assert (Hp : 0 < 16 ^ Z.of_nat k) by (apply Z.pow_pos_nonneg; lia).
    rewrite (Z.mul_comm 16 (16 ^ Z.of_nat k)).
    rewrite (Z.rem_mul_r z (16 ^ Z.of_nat k) 16) by lia.
    ring.
Qed.

Lemma length_hex_fixed n z : String.length (hex_fixed n z) = n.
Proof. induction n; simpl; congruence. Qed.

Lemma all_hex_fixed n z : all_hex (hex_fixed n z) = true.
Proof.
  induction n as [| k IH]; simpl; [reflexivity |].
  rewrite hex_value_digit by (apply Z.mod_pos_bound; lia). exact IH.
Qed.

Lemma hex_is_no_hyphen c d : hex_value c = Some d -> Ascii.eqb c "-" = false.
Proof.
  destruct c as [[] [] [] [] [] [] [] []]; simpl; intros E;
    try discriminate E; reflexivity.
Qed.

Lemma remove_hyphens_app s1 s2 :
  remove_hyphens (s1 ++ s2) = (remove_hyphens s1 ++ remove_hyphens s2)%string.
Proof.
  induction s1 as [| c s1 IH]; simpl; [reflexivity |].
  destruct (Ascii.eqb c "-"); simpl; now rewrite IH.
Qed.

Lemma remove_hyphens_hex s : all_hex s = true -> remove_hyphens s = s.
Proof.
  induction s as [| c s IH]; simpl; [reflexivity |].
  destruct (hex_value c) eqn:E; [| discriminate].
  intros Hs. rewrite (hex_is_no_hyphen _ _ E), IH by assumption. reflexivity.
Qed.

Lemma all_hex_substring s : forall n m,
  all_hex s = true -> all_hex (substring n m s) = true.
Proof.
  induction s as [| c s IH]; intros n m Hs.
  - destruct n, m; reflexivity.
  - simpl in Hs. destruct (hex_value c) eqn:E; [| discriminate].
    destruct n; [destruct m |]; simpl; rewrite ?E; auto.
Qed.

(** Cutting 32 characters into groups of 8-4-4-4-12 loses nothing. *)
Lemma groups_cover s :
  String.length s = 32%nat ->
  (substring 0 8 s ++ substring 8 4 s ++ substring 12 4 s ++
   substring 16 4 s ++ substring 20 12 s)%string = s.
Proof.
  intros L.
  do 32 (destruct s as [| ? s]; [discriminate L |]).
  destruct s; [reflexivity | discriminate L].
Qed.

Lemma remove_hyphens_to_str u :
  remove_hyphens (to_str u) = hex_fixed 32 (int u).
Proof.
  unfold to_str.
  set (h := hex_fixed 32 (int u)).
  assert (Hh : all_hex h = true) by apply all_hex_fixed.
  repeat rewrite remove_hyphens_app.
  change (remove_hyphens "-") with EmptyString.
  rewrite !remove_hyphens_hex by (apply all_hex_substring; exact Hh).
  cbn [append].
  apply groups_cover. apply length_hex_fixed.
Qed.

(** Decoding the text form gives the identifier back. *)
Lemma of_str_to_str u :
  0 <= int u < 2 ^ 128 -> of_str (to_str u) = Return u.
Proof.
  intros Hu. unfold of_str.
  rewrite remove_hyphens_to_str, length_hex_fixed. cbn [Nat.eqb].
  rewrite parse_hex_fixed.
  change (16 ^ Z.of_nat 32) with (2 ^ 128).
  rewrite Z.mod_small by exact Hu.
  destruct u as [i]. reflexivity.
Qed.

Lemma of_int_inv i u : of_int i = Return u -> int u = i /\ 0 <= i < 2 ^ 128.
Proof.
  unfold of_int.
  destruct ((0 <=? i) && (i <? 2 ^ 128)) eqn:E; [| discriminate].
  intros [= <-]. apply andb_prop in E. destruct E as [E1 E2].
  apply Z.leb_le in E1. apply Z.ltb_lt in E2. simpl. lia.
Qed.

Lemma of_int_range i : 0 <= i < 2 ^ 128 -> of_int i = Return (Make i).
Proof.
  intros [H1 H2]. unfold of_int.
  apply Z.leb_le in H1. apply Z.ltb_lt in H2. now rewrite H1, H2.
Qed.

End UUIDFacts.

(* ================================================================== *)
(** * Comparing an integer with the threshold *)
(* ================================================================== *)

Module OrderFacts.

Lemma int_cmp_finite_mono i j v e :
  i <= j -> int_cmp_finite j v e = Lt -> int_cmp_finite i v e = Lt.
Proof.
  unfold int_cmp_finite. intros Hij.
  destruct (0 <=? e); rewrite !Z.compare_lt_iff.
  - intros Hj. lia.
  - intros Hj.
    assert (Hp : 0 <= 2 ^ (- e)) by (apply Z.pow_nonneg; lia).
    apply Z.le_lt_trans with (j * 2 ^ (- e)); [| exact Hj].
    apply Z.mul_le_mono_nonneg_r; assumption.
Qed.

(** [j < threshold] and [i <= j] give [i < threshold], whatever the
    threshold is: an integer, a finite float, an infinity or a NaN. *)
Lemma lt_mono i j threshold :
  i <= j ->
  PyNum.lt (PInt j) threshold = true -> PyNum.lt (PInt i) threshold = true.
Proof.
  intros Hij. unfold PyNum.lt.
  destruct threshold as [z | f]; simpl.
  - destruct (j ?= z) eqn:E; try discriminate. intros _.
    change (j < z) in E.
    assert (E' : i < z) by lia.
    unfold Z.lt in E'. now rewrite E'.
  - destruct f as [s | s | | s m e]; simpl; try (intros; assumption).
    + destruct (j ?= 0) eqn:E; try discriminate. intros _.
      change (j < 0) in E.
      assert (E' : i < 0) by lia.
      unfold Z.lt in E'. now rewrite E'.
    + destruct (int_cmp_finite j (signed s m) e) eqn:E; try discriminate.
      intros _. now rewrite (int_cmp_finite_mono i j _ _ Hij E).
Qed.

End OrderFacts.

(* ================================================================== *)
(** * Runs of the monad *)
(* ================================================================== *)

Lemma sent_objects_app a b :
  sent_objects (a ++ b) = sent_objects a ++ sent_objects b.
Proof. unfold sent_objects. apply flat_map_app. Qed.

Lemma range_from_length start n : List.length (range_from start n) = n.
Proof. revert start. induction n; intros; simpl; congruence. Qed.

Lemma range_from_In start n i :
  In i (range_from start n) <-> start <= i < start + Z.of_nat n.
Proof.
  revert start. induction n as [| n IH]; intros start.
  - simpl. lia.
  - cbn [range_from In]. rewrite IH. lia.
Qed.

Lemma py_range_In start stop i : In i (py_range start stop) <-> start <= i < stop.
Proof.
  unfold py_range. rewrite range_from_In.
  destruct (Z.le_gt_cases 0 (stop - start)) as [Hle | Hgt].
  - rewrite Z2Nat.id by exact Hle. lia.
  - replace (Z.to_nat (stop - start)) with 0%nat by lia. simpl. lia.
Qed.

Section Runs.

Context {W : Type} `{World W}.

Lemma quiet_ret {A} (a : A) : quiet (ret a : M W A).
Proof. intros s. split; reflexivity. Qed.

Lemma quiet_lift {A} (o : outcome A) : quiet (lift o : M W A).
Proof. intros s. split; reflexivity. Qed.

Lemma quiet_logger lvl msg : quiet (logger lvl msg : M W unit).
Proof. intros s. split; reflexivity. Qed.

Lemma quiet_bind {A B} (m : M W A) (k : A -> M W B) :
  quiet m -> (forall a, quiet (k a)) -> quiet (bind m k).
Proof.
  intros Hm Hk s. destruct (Hm s) as [Hf Hs]. unfold bind.
  destruct (result (m s)) as [a | c | e]; cbn [final events].
  - destruct (Hk a (final (m s))) as [Hf' Hs'].
    rewrite sent_objects_app, Hs, Hs', Hf'. auto.
  - auto.
  - auto.
Qed.

Lemma quiet_when c (m : M W unit) : quiet m -> quiet (when c m).
Proof. destruct c; simpl; auto using quiet_ret. Qed.

Lemma quiet_for_each {A} (xs : list A) (body : A -> M W unit) :
  (forall x, quiet (body x)) -> quiet (for_each xs body).
Proof.
  intros Hb. induction xs as [| x xs IH]; cbn [for_each].
  - apply quiet_ret.
  - apply quiet_bind; auto.
Qed.

Lemma quiet_handle_errors results :
  quiet (W := W) (handle_errors results).
Proof.
  unfold handle_errors.
  assert (Hq : quiet (W := W) (items <- lift (Json.iterate results) ;;
     for_each items (fun result =>
        c <- lift (has_error_list result) ;;
        when c (
          errors <- lift (error_list result) ;;
          messages <- lift (Json.iterate errors) ;;
          for_each messages (fun message =>
            text <- lift (Json.getitem message "message") ;;
            logger ERROR [FJson text]))))%py).
  { apply quiet_bind; [apply quiet_lift |]. intros items.
    apply quiet_for_each. intros item.
    apply quiet_bind; [apply quiet_lift |]. intros c.
    apply quiet_when.
    apply quiet_bind; [apply quiet_lift |]. intros errors.
    apply quiet_bind; [apply quiet_lift |]. intros messages.
    apply quiet_for_each. intros message.
    apply quiet_bind; [apply quiet_lift |]. intros text.
    apply quiet_logger. }
  destruct results; exact Hq.
Qed.

(** ** What a load queues and sends *)

Lemma batch_flush_spec callback s :
  (forall results, quiet (callback results)) ->
  sent_objects (events (batch_flush callback s)) = pending s /\
  pending (final (batch_flush callback s)) = [].
Proof.
  intros Hq. unfold batch_flush.
  destruct (pending s) as [| o objs] eqn:Ep.
  - cbn. rewrite Ep. auto.
  - unfold bind. destruct (batch_create (o :: objs) (world s)) as [w results].
    cbn [result events final].
    destruct (Hq results {| world := w; pending := [] |}) as [Hf Hs].
    rewrite sent_objects_app, Hs, Hf. cbn. rewrite !app_nil_r. auto.
Qed.

Lemma batch_add_spec size callback o s :
  (forall results, quiet (callback results)) ->
  delivered (batch_add_data_object size callback o s) s [o].
Proof.
  intros Hq. unfold delivered, batch_add_data_object.
  cbn [pending world].
  destruct (Nat.leb size (List.length (pending s ++ [o]))).
  - destruct (batch_flush_spec callback
                {| world := world s; pending := pending s ++ [o] |} Hq)
      as [Hs Hp].
    rewrite Hs, Hp. cbn. now rewrite app_nil_r.
  - reflexivity.
Qed.

End Runs.

Section Loads.

Context {W : Type} `{World W}.
Variables (class_name stage_label : string) (end_ : Z) (threshold : pynum).

(** One turn of the loop queues the record of its index, or nothing
    when it stops before the object is added. *)
Lemma load_record_spec i s :
  let r := load_record class_name end_ stage_label threshold i s in
  (result r <> Return tt /\ delivered r s []) \/
  (exists o, content o = record_for class_name stage_label threshold i /\
             uuid_ok i /\ delivered r s [o]).
Proof.
  unfold load_record, bind, when, logger, emit, ret, np_rand, lift.
  destruct (i mod 10000 =? 0); cbn [result events final];
    destruct (np_random_rand (world s)) as [w v]; cbn [result events final];
    destruct (UUID.of_int i) as [u | c | e] eqn:Eu; cbn [result events final].
  all: try (left; split; [discriminate |];
            unfold delivered; cbn; now rewrite app_nil_r).
  all: right; destruct (UUIDFacts.of_int_inv _ _ Eu) as [Hu Hr];
    destruct u as [k]; simpl in Hu; subst k;
    exists {| bo_data_object := make_data_object threshold stage_label i;
              bo_vector := v; bo_class_name := class_name;
              bo_uuid := UUID.Make i |};
    split; [reflexivity |]; split; [exact Hr |];
    unfold delivered; cbn [events final];
    rewrite ?sent_objects_app; cbn [sent_objects flat_map app];
    apply (batch_add_spec 100%nat handle_errors _
             {| world := w; pending := pending s |} quiet_handle_errors).
Qed.

Lemma delivered_seq {A B} (r1 : run W A) (r2 : run W B) s l1 l2
    (o : outcome B) :
  delivered r1 s l1 -> delivered r2 (final r1) l2 ->
  delivered {| events := events r1 ++ events r2; final := final r2;
               result := o |} s (l1 ++ l2).
Proof.
  unfold delivered. cbn [events final]. intros H1 H2.
  rewrite sent_objects_app, <- app_assoc, H2, app_assoc, H1, app_assoc.
  reflexivity.
Qed.

(** The loop queues the records of a prefix of its indices, and of all
    of them when it runs to the end. *)
Lemma load_loop_spec xs : forall s,
  let r := for_each xs (load_record class_name end_ stage_label threshold) s in
  exists ys zs l,
    xs = ys ++ zs /\ Forall uuid_ok ys /\
    map content l = map (record_for class_name stage_label threshold) ys /\
    delivered r s l /\
    (result r = Return tt -> zs = []).
Proof.
  induction xs as [| x xs IH]; intros s.
  - exists [], [], []. repeat split; auto.
    unfold delivered. cbn. now rewrite app_nil_r.
  - cbn [for_each]. unfold bind.
    pose proof (load_record_spec x s) as Hx. cbv zeta in Hx.
    set (r1 := load_record class_name end_ stage_label threshold x s) in *.
    destruct Hx as [[Hne Hd] | [o [Hc [Hok Hd]]]].
    + exists [], (x :: xs), []. cbn [app map].
      destruct (result r1) as [[] | c | e] eqn:E1; [contradiction | |];
        (repeat split; auto; cbn [result]; discriminate).
    + destruct (result r1) as [[] | c | e] eqn:E1.
      * destruct (IH (final r1)) as (ys & zs & l & Hxs & Hall & Hm & Hd' & Hz).
        exists (x :: ys), zs, (o :: l). cbn [app map result].
        repeat split.
        -- now rewrite Hxs.
        -- constructor; assumption.
        -- now rewrite Hc, Hm.
        -- apply (delivered_seq r1 _ s [o] l); assumption.
        -- exact Hz.
      * exists [x], xs, [o]. cbn [app map result].
        repeat split; auto; try discriminate. now rewrite Hc.
      * exists [x], xs, [o]. cbn [app map result].
        repeat split; auto; try discriminate. now rewrite Hc.
Qed.

End Loads.

Section LoadRecords.

Context {W : Type} `{World W}.

(** What [load_records] has sent when it is over, however it ended. *)
Lemma load_records_spec class_name start end_ stage_label (s : state W) :
  pending s = [] ->
  let r := load_records class_name start end_ stage_label s in
  (loaded r = [] /\ result r <> Return tt) \/
  exists threshold ys zs,
    delete_threshold start end_ = Return threshold /\
    py_range start end_ = ys ++ zs /\
    Forall uuid_ok ys /\
    map content (loaded r) =
      map (record_for class_name stage_label threshold) ys /\
    (result r = Return tt -> zs = []).
Proof.
  intros Hp. cbv zeta.
  unfold loaded, load_records, with_cleanup, bind, lift, logger, emit.
  cbn [result events final].
  destruct (delete_threshold start end_) as [threshold | c | e] eqn:Et;
    cbn [result events final app].
  2, 3: left;
    destruct (batch_flush_spec handle_errors s quiet_handle_errors) as [Hs Hq];
    destruct (result (batch_flush handle_errors s)); cbn [events result];
    rewrite ?sent_objects_app, Hs, Hp; (split; [reflexivity | discriminate]).
  right.
  destruct (load_loop_spec class_name stage_label end_ threshold
              (py_range start end_) s)
    as (ys & zs & l & Hxs & Hall & Hm & Hd & Hz).
  set (loop := for_each (py_range start end_)
                 (load_record class_name end_ stage_label threshold) s) in *.
  destruct (batch_flush_spec handle_errors (final loop) quiet_handle_errors)
    as [Hs Hq].
  unfold delivered in Hd. rewrite Hp in Hd. cbn [app] in Hd.
  exists threshold, ys, zs. split; [reflexivity |]. split; [exact Hxs |].
  split; [exact Hall |].
  assert (Hsent : sent_objects (events loop ++
                    events (batch_flush handle_errors (final loop))) = l)
    by now rewrite sent_objects_app, Hs.
  destruct (result (batch_flush handle_errors (final loop))) as [[] | c | e];
    cbn [result events final].
  - destruct (result loop) as [[] | c | e] eqn:El; cbn [result events final].
    + rewrite sent_objects_app, Hsent. cbn. rewrite app_nil_r.
      split; [exact Hm | intros _; now apply Hz].
    + rewrite Hsent. split; [exact Hm | discriminate].
    + rewrite Hsent. split; [exact Hm | discriminate].
  - rewrite Hsent. split; [exact Hm | discriminate].
  - rewrite Hsent. split; [exact Hm | discriminate].
Qed.

End LoadRecords.

(* ================================================================== *)
(** * The records of a load *)
(* ================================================================== *)

Section LoadedRecords.

Context {W : Type} `{World W}.
Variables (class_name stage_label : string) (start end_ : Z) (s : state W).
Hypothesis Hpending : pending s = [].

(** Every record sent is the record of an index of the range. *)
Lemma loaded_inv o :
  In o (loaded (load_records class_name start end_ stage_label s)) ->
  exists threshold i,
    delete_threshold start end_ = Return threshold /\
    start <= i < end_ /\ uuid_ok i /\
    content o = record_for class_name stage_label threshold i.
Proof.
  intros Ho.
  destruct (load_records_spec class_name start end_ stage_label s Hpending)
    as [[Hnil _] | (threshold & ys & zs & Ht & Hxs & Hall & Hm & _)].
  - rewrite Hnil in Ho. destruct Ho.
  - apply (in_map content) in Ho. rewrite Hm in Ho.
    apply in_map_iff in Ho. destruct Ho as (i & Hi & Hin).
    exists threshold, i. split; [exact Ht |].
    split; [| split; [| now symmetry]].
    + apply py_range_In. rewrite Hxs. apply in_or_app. now left.
    + rewrite Forall_forall in Hall. now apply Hall.
Qed.

(** A load that ran to its end sent the record of every index. *)
Lemma loaded_all :
  result (load_records class_name start end_ stage_label s) = Return tt ->
  exists threshold,
    delete_threshold start end_ = Return threshold /\
    Forall uuid_ok (py_range start end_) /\
    map content (loaded (load_records class_name start end_ stage_label s)) =
      map (record_for class_name stage_label threshold) (py_range start end_).
Proof.
  intros Hr.
  destruct (load_records_spec class_name start end_ stage_label s Hpending)
    as [[_ Hne] | (threshold & ys & zs & Ht & Hxs & Hall & Hm & Hz)].
  - contradiction.
  - specialize (Hz Hr). subst zs. rewrite app_nil_r in Hxs. subst ys.
    exists threshold. auto.
Qed.

End LoadedRecords.

Lemma content_inv o class_name stage_label threshold i :
  content o = record_for class_name stage_label threshold i ->
  bo_data_object o = make_data_object threshold stage_label i /\
  bo_class_name o = class_name /\ bo_uuid o = UUID.Make i.
Proof. unfold content, record_for. intros [= H1 H2 H3]. auto. Qed.

(** C10: within one load, the records marked [should_be_deleted] form a
    downward-closed set of indices: if the record of an index is marked,
    so is the record of every lower index of the range. *)
Theorem marked_is_prefix_closed {W : Type} `{World W}
    (class_name stage_label : string) (start end_ : Z) (s : state W)
    (o1 o2 : batch_object) :
  pending s = [] ->
  In o1 (loaded (load_records class_name start end_ stage_label s)) ->
  In o2 (loaded (load_records class_name start end_ stage_label s)) ->
  index_id (bo_data_object o1) < index_id (bo_data_object o2) ->
  marked o2 = true ->
  marked o1 = true /\
  start <= index_id (bo_data_object o1) < end_ /\
  start <= index_id (bo_data_object o2) < end_.
Proof.
  intros Hp H1 H2 Hlt Hm.
  destruct (loaded_inv class_name stage_label start end_ s Hp o1 H1)
    as (t1 & i & Ht1 & Hi & _ & Hc1).
  destruct (loaded_inv class_name stage_label start end_ s Hp o2 H2)
    as (t2 & j & Ht2 & Hj & _ & Hc2).
  rewrite Ht1 in Ht2. injection Ht2 as <-.
  apply content_inv in Hc1. apply content_inv in Hc2.
  destruct Hc1 as (Hd1 & _ & _). destruct Hc2 as (Hd2 & _ & _).
  unfold marked in *. rewrite Hd1, Hd2 in *. cbn [index_id make_data_object
    should_be_deleted] in *.
  split; [| split; assumption].
  apply (OrderFacts.lt_mono i j); [lia | exact Hm].
Qed.

Lemma marked_is_prefix_closed_witness :
  pending MemStore.start = [] /\
  In (Samples.object 0) (loaded Samples.load_15) /\
  In (Samples.object 1) (loaded Samples.load_15) /\
  index_id (bo_data_object (Samples.object 0))
    < index_id (bo_data_object (Samples.object 1)) /\
  marked (Samples.object 1) = true /\
  marked (Samples.object 0) = true.
Proof.
  assert (H0 : In (Samples.object 0) (loaded Samples.load_15))
    by (vm_compute; left; reflexivity).
  assert (H1 : In (Samples.object 1) (loaded Samples.load_15))
    by (vm_compute; right; left; reflexivity).
  split; [reflexivity |]. split; [exact H0 |]. split; [exact H1 |].
  split; [reflexivity |]. split; [reflexivity |].
  exact (proj1 (marked_is_prefix_closed "C" "s" 0 15 MemStore.start
                  (Samples.object 0) (Samples.object 1)
                  eq_refl H0 H1 eq_refl eq_refl)).
Defined.

(* ================================================================== *)
(** * One index in four *)
(* ================================================================== *)

Lemma one_in_four a :
  List.length (filter by_four [a; a + 1; a + 2; a + 3]) = 1%nat.
Proof.
  unfold by_four. cbn [filter].
  destruct (a mod 4 =? 0) eqn:E0; destruct ((a + 1) mod 4 =? 0) eqn:E1;
    destruct ((a + 2) mod 4 =? 0) eqn:E2; destruct ((a + 3) mod 4 =? 0) eqn:E3;
    try reflexivity; exfalso;
    rewrite ?Z.eqb_eq, ?Z.eqb_neq in *;
    Z.div_mod_to_equations; lia.
Qed.

Lemma count_by_four k : forall a,
  List.length (filter by_four (range_from a (4 * k))) = k.
Proof.
  induction k as [| k IH]; intros a; [reflexivity |].
  replace (4 * S k)%nat with (S (S (S (S (4 * k))))) by lia.
  cbn [range_from].
  replace (a + 1 + 1) with (a + 2) by lia.
  replace (a + 2 + 1) with (a + 3) by lia.
  replace (a + 3 + 1) with (a + 4) by lia.
  change (a :: a + 1 :: a + 2 :: a + 3 :: range_from (a + 4) (4 * k))
    with ([a; a + 1; a + 2; a + 3] ++ range_from (a + 4) (4 * k)).
  rewrite filter_app, length_app, one_in_four, IH. reflexivity.
Qed.

Lemma filter_map_length {A B} (f : A -> B) (p : B -> bool) (l : list A) :
  List.length (filter (fun x => p (f x)) l) = List.length (filter p (map f l)).
Proof.
  induction l as [| x l IH]; [reflexivity |].
  cbn [filter map]. destruct (p (f x)); cbn [List.length]; now rewrite IH.
Qed.

(** C5: the record of index [i] has [is_divisible_by_four] true exactly
    when [i mod 4 = 0]; and a load over a range whose length is divisible
    by four that ran to its end wrote exactly one record in four with
    [is_divisible_by_four] true. *)
Theorem divisible_by_four_partition {W : Type} `{World W}
    (class_name stage_label : string) (start end_ : Z) (s : state W) :
  pending s = [] ->
  (forall o,
     In o (loaded (load_records class_name start end_ stage_label s)) ->
     (is_divisible_by_four (bo_data_object o) = true <->
      index_id (bo_data_object o) mod 4 = 0)) /\
  (result (load_records class_name start end_ stage_label s) = Return tt ->
   start <= end_ -> (end_ - start) mod 4 = 0 ->
   Z.of_nat (List.length
     (loaded (load_records class_name start end_ stage_label s)))
     = end_ - start /\
   4 * count_true divisible
         (loaded (load_records class_name start end_ stage_label s))
     = end_ - start).
Proof.
  intros Hp. split.
  - intros o Ho.
    destruct (loaded_inv class_name stage_label start end_ s Hp o Ho)
      as (t & i & _ & _ & _ & Hc).
    apply content_inv in Hc. destruct Hc as (Hd & _ & _). rewrite Hd.
    cbn [is_divisible_by_four index_id make_data_object].
    apply Z.eqb_eq.
  - intros Hr Hle Hmod.
    destruct (loaded_all class_name stage_label start end_ s Hp Hr)
      as (t & _ & _ & Hm).
    set (l := loaded (load_records class_name start end_ stage_label s)) in *.
    assert (Hlen : List.length l = Z.to_nat (end_ - start)).
    { rewrite <- (length_map content l), Hm, length_map.
      apply range_from_length. }
    split; [rewrite Hlen; lia |].
    unfold count_true.
    change (filter divisible l)
      with (filter (fun o => (fun c => is_divisible_by_four (fst (fst c)))
                               (content o)) l).
    rewrite filter_map_length, Hm, <- filter_map_length.
    change (filter _ (py_range start end_))
      with (filter by_four (py_range start end_)).
    unfold py_range.
    assert (Hk : Z.to_nat (end_ - start)
                 = (4 * Z.to_nat ((end_ - start) / 4))%nat).
    { apply Z.mod_divide in Hmod; [| lia]. destruct Hmod as [q Hq].
      rewrite Hq, Z.div_mul by lia. lia. }
    rewrite Hk, count_by_four.
    apply Z.mod_divide in Hmod; [| lia]. destruct Hmod as [q Hq].
    rewrite Hq, Z.div_mul by lia. lia.
Qed.

Lemma divisible_by_four_partition_witness :
  pending MemStore.start = [] /\
  result Samples.load_8 = Return tt /\ 0 <= 8 /\ (8 - 0) mod 4 = 0 /\
  4 * count_true divisible (loaded Samples.load_8) = 8 - 0.
Proof.
  assert (Hr : result Samples.load_8 = Return tt) by (vm_compute; reflexivity).
  split; [reflexivity |]. split; [exact Hr |]. split; [lia |].
  split; [reflexivity |].
  exact (proj2 (proj2 (divisible_by_four_partition "C" "s" 0 8 MemStore.start
                         eq_refl) Hr ltac:(lia) eq_refl)).
Defined.

(* ================================================================== *)
(** * Index, identifier and lookup key *)
(* ================================================================== *)

Lemma uuid_str_ok i :
  uuid_ok i -> uuid_str i = Return (UUID.to_str (UUID.Make i)).
Proof.
  intros Hi. unfold uuid_str. now rewrite UUIDFacts.of_int_range.
Qed.

(** C4: every record a load writes for an index [i] carries
    [index_id = i] and the identifier built from [i]; the text form of
    that identifier decodes back to [i], it is the key the validator looks
    the record up with, two written records with the same identifier have
    the same index, and a load that ran to its end wrote a record for
    every index of its range. *)
Theorem index_identifier_round_trip {W : Type} `{World W}
    (class_name stage_label : string) (start end_ : Z) (s : state W) :
  pending s = [] ->
  (forall o,
     In o (loaded (load_records class_name start end_ stage_label s)) ->
     let i := index_id (bo_data_object o) in
     start <= i < end_ /\
     UUID.of_int i = Return (bo_uuid o) /\
     UUID.int (bo_uuid o) = i /\
     UUID.of_str (UUID.to_str (bo_uuid o)) = Return (bo_uuid o) /\
     uuid_str i = Return (UUID.to_str (bo_uuid o))) /\
  (forall o1 o2,
     In o1 (loaded (load_records class_name start end_ stage_label s)) ->
     In o2 (loaded (load_records class_name start end_ stage_label s)) ->
     UUID.to_str (bo_uuid o1) = UUID.to_str (bo_uuid o2) ->
     index_id (bo_data_object o1) = index_id (bo_data_object o2)) /\
  (result (load_records class_name start end_ stage_label s) = Return tt ->
   forall i, start <= i < end_ ->
     exists o,
       In o (loaded (load_records class_name start end_ stage_label s)) /\
       index_id (bo_data_object o) = i).
Proof.
  intros Hp.
  assert (Hone : forall o,
     In o (loaded (load_records class_name start end_ stage_label s)) ->
     let i := index_id (bo_data_object o) in
     start <= i < end_ /\
     UUID.of_int i = Return (bo_uuid o) /\
     UUID.int (bo_uuid o) = i /\
     UUID.of_str (UUID.to_str (bo_uuid o)) = Return (bo_uuid o) /\
     uuid_str i = Return (UUID.to_str (bo_uuid o))).
  { intros o Ho.
    destruct (loaded_inv class_name stage_label start end_ s Hp o Ho)
      as (t & i & _ & Hi & Hok & Hc).
    apply content_inv in Hc. destruct Hc as (Hd & _ & Hu).
    rewrite Hd, Hu. cbn [index_id make_data_object UUID.int].
    repeat split; try apply Hi.
    - now apply UUIDFacts.of_int_range.
    - now apply UUIDFacts.of_str_to_str.
    - now apply uuid_str_ok. }
  split; [exact Hone |]. split.
  - intros o1 o2 H1 H2 Heq.
    destruct (Hone o1 H1) as (_ & _ & <- & Hd1 & _).
    destruct (Hone o2 H2) as (_ & _ & <- & Hd2 & _).
    rewrite Heq, Hd2 in Hd1. now injection Hd1 as ->.
  - intros Hr i Hi.
    destruct (loaded_all class_name stage_label start end_ s Hp Hr)
      as (t & _ & _ & Hm).
    assert (Hin : In (record_for class_name stage_label t i)
                     (map content
                        (loaded (load_records class_name start end_
                                   stage_label s)))).
    { rewrite Hm. apply in_map. now apply py_range_In. }
    apply in_map_iff in Hin. destruct Hin as (o & Hc & Ho).
    exists o. split; [exact Ho |].
    apply content_inv in Hc. destruct Hc as (Hd & _ & _). now rewrite Hd.
Qed.

Lemma index_identifier_round_trip_witness :
  pending MemStore.start = [] /\
  In (Samples.object 11) (loaded Samples.load_15) /\
  UUID.of_str (UUID.to_str (bo_uuid (Samples.object 11)))
    = Return (bo_uuid (Samples.object 11)) /\
  uuid_str 11 = Return "00000000-0000-0000-0000-00000000000b"%string.
Proof.
  assert (Ho : In (Samples.object 11) (loaded Samples.load_15))
    by (vm_compute; do 11 right; left; reflexivity).
  split; [reflexivity |]. split; [exact Ho |].
  destruct (proj1 (index_identifier_round_trip "C" "s" 0 15 MemStore.start
                     eq_refl) (Samples.object 11) Ho)
    as (_ & _ & _ & Hd & Hk).
  split; [exact Hd | exact Hk].
Defined.

(* ================================================================== *)
(** * A range whose length is not a multiple of ten *)
(* ================================================================== *)

(** C1: on the range [0, 15) the threshold is [1.5], so the loader marks
    the records of the indices 0 and 1: two records, where
    [floor((15 - 0) * 0.1)] is one.  The marked records are the lowest
    indices of the range. *)
Theorem load_15_marks_two_records :
  delete_threshold 0 15
    = Return (PFloat (S754_finite false 6755399441055744 (-52))) /\
  obind (PyNum.mul (PInt (15 - 0)) (PFloat lit_0_1))
        (fun x => Return (PyNum.floor x)) = Return (Some 1) /\
  result Samples.load_15 = Return tt /\
  map (fun o => index_id (bo_data_object o))
      (filter marked (loaded Samples.load_15)) = [0; 1] /\
  count_true marked (loaded Samples.load_15) = 2.
Proof. vm_compute. repeat split; reflexivity. Qed.

(** C2: on the range [0, 15) the validator starts at
    [int(1.5) = 1], while the loader marked two records: index 1 is
    deleted and is the first index the validator looks up, and the lookup
    of the missing record ends the run with a [TypeError]. *)
Theorem validate_15_checks_a_deleted_index :
  start_without_deleted 0 15 = Return 1 /\
  0 + count_true marked (loaded Samples.load_15) = 2 /\
  In (Samples.object 1) (loaded Samples.load_15) /\
  marked (Samples.object 1) = true /\
  uuid_str 1 = Return "00000000-0000-0000-0000-000000000001"%string /\
  checked_by_uuid (events Samples.validate_15)
    = ["00000000-0000-0000-0000-000000000001"%string] /\
  result Samples.validate_15 = Raise TypeError.
Proof.
  vm_compute. repeat split; try reflexivity. right. left. reflexivity.
Qed.

(* ================================================================== *)
(** * The expected counts of the two stages *)
(* ================================================================== *)



(* ================================================================== *)
(** * The batch callback *)
(* ================================================================== *)

Lemma run_eq {W A} (r : run W A) evs f o :
  events r = evs -> final r = f -> result r = o ->
  r = {| events := evs; final := f; result := o |}.
Proof. destruct r. cbn. intros -> -> ->. reflexivity. Qed.

Lemma map_flat_map {A B C} (g : B -> C) (f : A -> list B) (l : list A) :
  map g (flat_map f l) = flat_map (fun x => map g (f x)) l.
Proof.
  induction l as [| x l IH]; [reflexivity |].
  cbn [flat_map]. now rewrite map_app, IH.
Qed.

Section Callback.

Context {W : Type} `{World W}.

Lemma bind_lift_return {A B} (a : A) (k : A -> M W B) (s : state W) :
  bind (lift (Return a)) k s = k a s.
Proof. unfold bind, lift. cbn. destruct (k a s). reflexivity. Qed.

(** A loop whose every turn only logs and returns does the same. *)
Lemma for_each_logs {A} (xs : list A) (body : A -> M W unit)
    (f : A -> list event) (s : state W) :
  (forall x, In x xs ->
     body x s = {| events := f x; final := s; result := Return tt |}) ->
  for_each xs body s
  = {| events := flat_map f xs; final := s; result := Return tt |}.
Proof.
  induction xs as [| x xs IH]; intros Hb; [reflexivity |].
  cbn [for_each flat_map]. unfold bind.
  rewrite (Hb x (or_introl eq_refl)). cbn [result final events].
  rewrite IH by (intros y Hy; apply Hb; now right).
  reflexivity.
Qed.

Lemma message_logged (m : json) (s : state W) :
  BatchResult.wf_message m = true ->
  (text <- lift (Json.getitem m "message") ;; logger ERROR [FJson text])%py s
  = {| events := map log_error (BatchResult.message_text m);
       final := s; result := Return tt |}.
Proof.
  destruct m as [| | | | | kv]; try discriminate. cbn.
  destruct (Json.lookup "message" kv) as [t |]; [| discriminate].
  intros _. reflexivity.
Qed.

Lemma item_logged (item : json) (s : state W) :
  BatchResult.wf_item item = true ->
  (c <- lift (has_error_list item) ;;
   when c (
     errors <- lift (error_list item) ;;
     messages <- lift (Json.iterate errors) ;;
     for_each messages (fun message =>
       text <- lift (Json.getitem message "message") ;;
       logger ERROR [FJson text])))%py s
  = {| events :=
         map log_error
           (flat_map BatchResult.message_text (BatchResult.item_errors item));
       final := s; result := Return tt |}.
Proof.
  destruct item as [| | | | | kv]; try discriminate.
  unfold BatchResult.wf_item, BatchResult.item_errors, has_error_list,
    error_list.
  cbn [Json.contains Json.getitem obind].
  destruct (Json.lookup "result" kv) as [[| | | | | r] |]; try discriminate;
    [| intros _; reflexivity].
  cbn [of_option obind Json.contains Json.getitem].
  destruct (Json.lookup "errors" r) as [[| | | | | es] |]; try discriminate;
    [| intros _; reflexivity].
  cbn [of_option obind Json.contains Json.getitem].
  destruct (Json.lookup "error" es) as [[| | | | ms |] |]; try discriminate;
    [| intros _; reflexivity].
  cbn [of_option obind Json.contains Json.getitem].
  intros Hms.
  rewrite bind_lift_return. cbn [when].
  rewrite bind_lift_return. cbn [Json.iterate].
  rewrite bind_lift_return.
  rewrite (for_each_logs ms _
             (fun m => map log_error (BatchResult.message_text m))).
  - now rewrite map_flat_map.
  - intros m Hm. apply message_logged.
    rewrite forallb_forall in Hms. now apply Hms.
Qed.

End Callback.

(** C6: for every well-formed batch result, the callback logs each
    failure message of the result, in order, at level ERROR, sends nothing,
    leaves the state as it was and returns: it neither exits nor raises. *)
Theorem handle_errors_only_logs {W : Type} `{World W}
    (results : json) (s : state W) :
  BatchResult.well_formed results = true ->
  handle_errors results s
  = {| events := map (fun t => Log ERROR [FJson t])
                     (BatchResult.failure_messages results);
       final := s;
       result := Return tt |}.
Proof.
  destruct results as [| | | | items |]; try discriminate.
  - intros _. reflexivity.
  - intros Hwf. unfold handle_errors, BatchResult.failure_messages.
    cbn [Json.iterate]. rewrite bind_lift_return.
    rewrite (for_each_logs items _
               (fun item => map log_error
                  (flat_map BatchResult.message_text
                     (BatchResult.item_errors item)))).
    + now rewrite (map_flat_map log_error).
    + intros item Hitem. apply item_logged.
      unfold BatchResult.well_formed in Hwf.
      rewrite forallb_forall in Hwf. now apply Hwf.
Qed.

Lemma handle_errors_only_logs_witness :
  BatchResult.well_formed
    (JList [EchoStore.failed ["boom"; "bang"]%string; JDict []]) = true /\
  handle_errors (JList [EchoStore.failed ["boom"; "bang"]%string; JDict []])
    MemStore.start
  = {| events := [Log ERROR [FJson (JStr "boom")];
                  Log ERROR [FJson (JStr "bang")]];
       final := MemStore.start;
       result := Return tt |}.
Proof.
  split; [reflexivity |].
  exact (handle_errors_only_logs
           (JList [EchoStore.failed ["boom"; "bang"]%string; JDict []])
           MemStore.start eq_refl).
Defined.

(* ================================================================== *)
(** * Pure computations never exit *)
(* ================================================================== *)

Lemma no_exit_of_option {A} e (o : option A) c : of_option e o <> Exit c.
Proof. destruct o; discriminate. Qed.

Lemma no_exit_obind {A B} (o : outcome A) (k : A -> outcome B) :
  (forall c, o <> Exit c) -> (forall a c, k a <> Exit c) ->
  forall c, obind o k <> Exit c.
Proof.
  intros Ho Hk c. destruct o as [a | c' | e]; cbn.
  - apply Hk.
  - exfalso. now apply (Ho c').
  - discriminate.
Qed.

Lemma no_exit_to_float x c : PyNum.to_float x <> Exit c.
Proof. destruct x; cbn; [apply no_exit_of_option | discriminate]. Qed.

Lemma no_exit_mul x y c : PyNum.mul x y <> Exit c.
Proof.
  destruct x, y; cbn [PyNum.mul]; try discriminate;
    (apply no_exit_obind; [apply no_exit_to_float |]; intros;
     apply no_exit_obind; [apply no_exit_to_float |]; discriminate).
Qed.

Lemma no_exit_add x y c : PyNum.add x y <> Exit c.
Proof.
  destruct x, y; cbn [PyNum.add]; try discriminate;
    (apply no_exit_obind; [apply no_exit_to_float |]; intros;
     apply no_exit_obind; [apply no_exit_to_float |]; discriminate).
Qed.

Lemma no_exit_int x c : PyNum.int x <> Exit c.
Proof.
  destruct x as [z | f]; cbn; [discriminate |].
  destruct f; try discriminate; apply no_exit_of_option.
Qed.

Lemma no_exit_truediv x y c : PyNum.truediv x y <> Exit c.
Proof.
  destruct x, y; cbn [PyNum.truediv].
  - apply no_exit_obind; [apply no_exit_of_option |].
    intros f c'. destruct f; discriminate.
  - apply no_exit_obind; [apply no_exit_to_float |]; intros;
      apply no_exit_obind; [apply no_exit_to_float |]; intros.
    destruct (PyNum.is_zero a0); discriminate.
  - apply no_exit_obind; [apply no_exit_to_float |]; intros;
      apply no_exit_obind; [apply no_exit_to_float |]; intros.
    destruct (PyNum.is_zero a0); discriminate.
  - apply no_exit_obind; [apply no_exit_to_float |]; intros;
      apply no_exit_obind; [apply no_exit_to_float |]; intros.
    destruct (PyNum.is_zero a0); discriminate.
Qed.

Lemma no_exit_delete_threshold start end_ c :
  delete_threshold start end_ <> Exit c.
Proof.
  unfold delete_threshold. apply no_exit_obind; [apply no_exit_mul |].
  intros. apply no_exit_add.
Qed.

Lemma no_exit_start_without_deleted start end_ c :
  start_without_deleted start end_ <> Exit c.
Proof.
  unfold start_without_deleted.
  apply no_exit_obind; [apply no_exit_delete_threshold | apply no_exit_int].
Qed.

Lemma uuid_str_inv i id :
  uuid_str i = Return id ->
  uuid_ok i /\ id = UUID.to_str (UUID.Make i) /\
  UUID.of_str id = Return (UUID.Make i).
Proof.
  unfold uuid_str. destruct (UUID.of_int i) as [u | c | e] eqn:Eu;
    cbn; try discriminate.
  intros [= <-]. destruct (UUIDFacts.of_int_inv _ _ Eu) as [Hu Hr].
  destruct u as [k]. cbn in Hu. subst k.
  split; [exact Hr |]. split; [reflexivity |].
  now apply UUIDFacts.of_str_to_str.
Qed.

Lemma no_exit_uuid_str i c : uuid_str i <> Exit c.
Proof.
  unfold uuid_str, UUID.of_int.
  destruct ((0 <=? i) && (i <? 2 ^ 128)); discriminate.
Qed.

(* ================================================================== *)
(** * Verdicts of the per-record checks *)
(* ================================================================== *)

Lemma clean_app a b : clean (a ++ b) <-> clean a /\ clean b.
Proof. unfold clean. rewrite existsb_app. apply orb_false_iff. Qed.

Section Verdicts.

Context {W : Type} `{World W}.

Lemma verdict_ret {A} (a : A) (s : state W) : verdict (ret a s).
Proof. left. split; [reflexivity | discriminate]. Qed.

Lemma verdict_lift {A} (o : outcome A) (s : state W) :
  (forall c, o <> Exit c) -> verdict (lift o s).
Proof. intros Ho. left. split; [reflexivity | exact Ho]. Qed.

Lemma verdict_logger lvl msg (s : state W) : verdict (logger lvl msg s).
Proof. left. split; [reflexivity | discriminate]. Qed.

Lemma verdict_bind {A B} (m : M W A) (k : A -> M W B) (s : state W) :
  verdict (m s) -> (forall a s', verdict (k a s')) -> verdict (bind m k s).
Proof.
  intros [[Hc Hne] | [Hx (evs & e & msg & He & Hcl & Hm & Hr)]] Hk;
    unfold bind.
  - destruct (result (m s)) as [a | c | ex] eqn:E.
    + destruct (Hk a (final (m s)))
        as [[Hc' Hne'] | [Hx' (evs' & e' & msg' & He' & Hcl' & Hm' & Hr')]].
      * left. cbn [events result]. split; [| exact Hne'].
        apply clean_app. auto.
      * right. cbn [events result]. split; [exact Hx' |].
        exists (events (m s) ++ evs'), e', msg'.
        rewrite He', app_assoc. repeat split; auto.
        apply clean_app. auto.
    + exfalso. now apply (Hne c).
    + left. cbn [events result]. split; [exact Hc | discriminate].
  - rewrite Hx. right. cbn [events result]. split; [reflexivity |].
    exists evs, e, msg. auto.
Qed.

Lemma verdict_when c (m : M W unit) (s : state W) :
  verdict (m s) -> verdict (when c m s).
Proof. destruct c; cbn; auto using verdict_ret. Qed.

Lemma verdict_for_each {A} (xs : list A) (body : A -> M W unit) :
  (forall x s, verdict (body x s)) -> forall s, verdict (for_each xs body s).
Proof.
  intros Hb. induction xs as [| x xs IH]; intros s; cbn [for_each].
  - apply verdict_ret.
  - apply verdict_bind; auto.
Qed.

(** Lines 155-161. *)
Lemma verdict_check_by_uuid class_name end_ i (s : state W) :
  verdict (check_by_uuid class_name end_ i s).
Proof.
  unfold check_by_uuid, bind, lift, call, when, fatal, success, logger,
    emit, sys_exit, ret.
  destruct (uuid_str i) as [id | c | ex] eqn:Eid; cbn [result events final].
  2: { exfalso. now apply (no_exit_uuid_str i c). }
  2: { left. split; [reflexivity | discriminate]. }
  destruct (uuid_str_inv i id Eid) as (Hok & Hid & Hdec).
  destruct (data_object_get_by_id id class_name (world s)) as [w o].
  cbn [result events final].
  destruct o as [found |]; cbn [of_option result events final].
  2: { left. split; [reflexivity | discriminate]. }
  destruct (index_id found =? i) eqn:Ei; cbn [negb result events final].
  - assert (Hcl : stage_mismatch (GetById id class_name (Some found)) = false).
    { cbn. rewrite Hdec. cbn. now rewrite Ei. }
    destruct (i mod 10000 =? 0); cbn [result events final];
      left; (split; [| discriminate]); unfold clean; cbn [events existsb app];
      rewrite Hcl; reflexivity.
  - right. split; [reflexivity |].
    exists [], (GetById id class_name (Some found)).
    eexists. split; [reflexivity |]. split; [reflexivity |].
    split.
    + cbn. rewrite Hdec. cbn. now rewrite Ei.
    + apply report_by_uuid; [exact Eid |]. now apply Z.eqb_neq.
Qed.

(** Lines 164-181. *)
Lemma verdict_check_by_filter class_name end_ i (s : state W) :
  verdict (check_by_filter class_name end_ i s).
Proof.
  unfold check_by_filter, bind, lift, call, when, fatal, success, logger,
    emit, sys_exit, ret.
  destruct (query_do
              (with_where (index_id_equal i) (query_get class_name "index_id"))
              (world s)) as [w r].
  cbn [result events final].
  destruct r as [| first rest]; cbn [nth_error of_option result events final].
  { left. split; [reflexivity | discriminate]. }
  destruct (index_id first =? i) eqn:Ei; cbn [negb result events final].
  - assert (Hcl : stage_mismatch
                    (Get (with_where (index_id_equal i)
                            (query_get class_name "index_id"))
                         (first :: rest)) = false).
    { cbn. now rewrite Ei. }
    destruct (i mod 10000 =? 0); cbn [result events final];
      left; (split; [| discriminate]); unfold clean; cbn [events existsb app];
      rewrite Hcl; reflexivity.
  - right. split; [reflexivity |].
    eexists [], _, _. split; [reflexivity |]. split; [reflexivity |].
    split.
    + cbn. now rewrite Ei.
    + apply report_by_filter. now apply Z.eqb_neq.
Qed.

(** Lines 198-202 and 226-230, after the query [q] was answered. *)
Lemma verdict_search q (r : list data_object) end_ i (w : W) (s : state W) :
  is_search q = true -> gq_limit q = Some limit ->
  verdict
    {| events := [Get q r] ++ events (check_result_len r end_ i
                                        {| world := w; pending := pending s |});
       final := final (check_result_len r end_ i
                         {| world := w; pending := pending s |});
       result := result (check_result_len r end_ i
                           {| world := w; pending := pending s |}) |}.
Proof.
  intros Hq Hl.
  unfold check_result_len, bind, when, fatal, success, logger, emit,
    sys_exit, ret.
  destruct (Z.of_nat (List.length r) =? limit) eqn:En;
    cbn [negb result events final].
  - assert (Hcl : stage_mismatch (Get q r) = false).
    { cbn. rewrite Hq. now rewrite En. }
    destruct (i mod 10000 =? 0); cbn [result events final];
      left; (split; [| discriminate]); unfold clean; cbn [events existsb app];
      rewrite Hcl; reflexivity.
  - right. split; [reflexivity |].
    eexists [], _, _. split; [reflexivity |]. split; [reflexivity |].
    split.
    + cbn. rewrite Hq. now rewrite En.
    + apply report_search; [exact Hq | exact Hl |]. now apply Z.eqb_neq.
Qed.

(** Lines 185-202. *)
Lemma verdict_check_vector_search class_name end_ i (s : state W) :
  verdict (check_vector_search class_name end_ i s).
Proof.
  unfold check_vector_search.
  unfold bind at 1. unfold lift.
  destruct (uuid_str i) as [id | c | ex] eqn:Eid; cbn [result events final].
  2: { exfalso. now apply (no_exit_uuid_str i c). }
  2: { left. split; [reflexivity | discriminate]. }
  unfold bind, call.
  destruct (query_do (near_query class_name id) (world s)) as [w r].
  cbn [result events final app].
  apply (verdict_search (near_query class_name id) r end_ i w s);
    reflexivity.
Qed.

(** Lines 206-230. *)
Lemma verdict_check_vector_search_filtered class_name stage_label end_ i
    (s : state W) :
  verdict (check_vector_search_filtered class_name stage_label end_ i s).
Proof.
  unfold check_vector_search_filtered.
  unfold bind at 1. unfold lift.
  destruct (uuid_str i) as [id | c | ex] eqn:Eid; cbn [result events final].
  2: { exfalso. now apply (no_exit_uuid_str i c). }
  2: { left. split; [reflexivity | discriminate]. }
  unfold bind, call.
  destruct (query_do (near_query_filtered class_name id stage_label)
              (world s)) as [w r].
  cbn [result events final app].
  apply (verdict_search (near_query_filtered class_name id stage_label)
           r end_ i w s); reflexivity.
Qed.

Lemma verdict_validate_stage class_name start end_ stage_label (s : state W) :
  verdict (validate_stage class_name start end_ stage_label s).
Proof.
  unfold validate_stage.
  apply verdict_bind;
    [apply verdict_lift; apply no_exit_start_without_deleted |].
  intros first s1.
  repeat (apply verdict_bind; [| intros ? ?]);
    try apply verdict_logger;
    try (apply verdict_for_each; intros;
         first [ apply verdict_check_by_uuid
               | apply verdict_check_by_filter
               | apply verdict_check_vector_search
               | apply verdict_check_vector_search_filtered ]).
Qed.

End Verdicts.

(* ================================================================== *)
(** * Reading the requests of a run off its trace *)
(* ================================================================== *)

Lemma list_prefix_refl {X} (l : list X) : list_prefix l l.
Proof. exists []. now rewrite app_nil_r. Qed.

Lemma list_prefix_nil {X} (l : list X) : list_prefix [] l.
Proof. now exists l. Qed.

Lemma list_prefix_app_r {X} (l1 l2 l3 : list X) : list_prefix l1 l2 -> list_prefix l1 (l2 ++ l3).
Proof. intros [rest ->]. exists (rest ++ l3). now rewrite app_assoc. Qed.

Lemma list_prefix_app_l {X} (l l1 l2 : list X) : list_prefix l1 l2 -> list_prefix (l ++ l1) (l ++ l2).
Proof. intros [rest ->]. exists rest. now rewrite app_assoc. Qed.

Lemma flat_map_nil {A B} (l : list A) : flat_map (fun _ => @nil B) l = [].
Proof. induction l; [reflexivity | assumption]. Qed.


Section Tracks.

Context {W : Type} `{World W} {X : Type}.
Variable obs : list event -> list X.
Hypothesis obs_nil : obs [] = [].
Hypothesis obs_app : forall a b, obs (a ++ b) = obs a ++ obs b.

Lemma tracks_ret {A} (a : A) (s : state W) : tracks obs (ret a s) [].
Proof. split; cbn; rewrite obs_nil; [apply list_prefix_refl | reflexivity]. Qed.

Lemma tracks_lift {A} (o : outcome A) (s : state W) : tracks obs (lift o s) [].
Proof. split; cbn; rewrite obs_nil; [apply list_prefix_refl | reflexivity]. Qed.

Lemma tracks_exit {A} c (s : state W) :
  tracks obs (sys_exit (A := A) c s) [].
Proof. split; cbn; rewrite obs_nil; [apply list_prefix_refl | reflexivity]. Qed.

Lemma tracks_emit e l (s : state W) : obs [e] = l -> tracks obs (emit e s) l.
Proof. intros <-. split; cbn; [apply list_prefix_refl | reflexivity]. Qed.

Lemma tracks_call {A} (op : W -> W * A) (ev : A -> event) l (s : state W) :
  (forall a, obs [ev a] = l) -> tracks obs (call op ev s) l.
Proof.
  intros Hl. unfold tracks, call. destruct (op (world s)) as [w a].
  split; cbn [events result]; rewrite Hl; [apply list_prefix_refl | reflexivity].
Qed.

Lemma tracks_bind {A B} (m : M W A) (k : A -> M W B) l1 l2 (s : state W) :
  tracks obs (m s) l1 -> (forall a s', tracks obs (k a s') l2) ->
  tracks obs (bind m k s) (l1 ++ l2).
Proof.
  intros [Hp Hc] Hk. unfold tracks, bind.
  destruct (result (m s)) as [a | c | e] eqn:E; cbn [events result].
  - destruct (Hk a (final (m s))) as [Hp' Hc'].
    rewrite obs_app, (Hc a eq_refl). split.
    + now apply list_prefix_app_l.
    + intros b Hb. now rewrite (Hc' b Hb).
  - split; [now apply list_prefix_app_r | discriminate].
  - split; [now apply list_prefix_app_r | discriminate].
Qed.

(** The continuation may depend on the value a pure step returned. *)
Lemma tracks_bind_lift {A B} (o : outcome A) (k : A -> M W B) l (s : state W) :
  (forall a, o = Return a -> tracks obs (k a s) l) ->
  tracks obs (bind (lift o) k s) l.
Proof.
  intros Hk. unfold tracks, bind, lift. cbn [result events final].
  destruct o as [a | c | e]; cbn [events result app].
  - destruct (Hk a eq_refl) as [Hp Hc]. split; assumption.
  - rewrite obs_nil. split; [apply list_prefix_nil | discriminate].
  - rewrite obs_nil. split; [apply list_prefix_nil | discriminate].
Qed.

Lemma tracks_when c (m : M W unit) (s : state W) :
  tracks obs (m s) [] -> tracks obs (when c m s) [].
Proof. destruct c; cbn; auto using tracks_ret. Qed.

Lemma tracks_for_each {A} (xs : list A) (body : A -> M W unit)
    (f : A -> list X) :
  (forall x s, tracks obs (body x s) (f x)) ->
  forall s, tracks obs (for_each xs body s) (flat_map f xs).
Proof.
  intros Hb. induction xs as [| x xs IH]; intros s; cbn [for_each flat_map].
  - apply tracks_ret.
  - apply tracks_bind; auto.
Qed.

Lemma tracks_eq {A} (r : run W A) l l' : tracks obs r l -> l = l' -> tracks obs r l'.
Proof. now intros Ht <-. Qed.

End Tracks.



Section Searches.

Context {W : Type} `{World W}.






End Searches.








Section Dataset.
Context {W : Type} `{World W}.

Lemma bind_return {A B} (m : M W A) (k : A -> M W B) (s : state W)
    evs s' a :
  m s = {| events := evs; final := s'; result := Return a |} ->
  bind m k s
  = {| events := evs ++ events (k a s'); final := final (k a s');
       result := result (k a s') |}.
Proof. intros E. unfold bind. rewrite E. reflexivity. Qed.

Lemma bind_exit {A B} (m : M W A) (k : A -> M W B) (s : state W)
    evs s' c :
  m s = {| events := evs; final := s'; result := Exit c |} ->
  bind m k s = {| events := evs; final := s'; result := Exit c |}.
Proof. intros E. unfold bind. rewrite E. reflexivity. Qed.

Lemma call_run {A} (op : W -> W * A) (ev : A -> event) (s : state W) w a :
  op (world s) = (w, a) ->
  call op ev s
  = {| events := [ev a]; final := {| world := w; pending := pending s |};
       result := Return a |}.
Proof. intros E. unfold call. rewrite E. reflexivity. Qed.

Lemma only_logs_nil : only_logs [].
Proof. intros e []. Qed.

Lemma only_logs_cons l msg evs : only_logs evs -> only_logs (Log l msg :: evs).
Proof. intros Hl e [<- | He]; [eauto | auto]. Qed.

Lemma dataset_verdict_validate_dataset class_name expected filtered
    (s : state W) :
  expected_filtered_count expected = Return filtered ->
  dataset_verdict class_name expected filtered
    (validate_dataset class_name expected s).
Proof.
  intros Hf. unfold validate_dataset. rewrite Hf, bind_lift_return.
  unfold check_count.
  destruct (query_aggregate class_name None (world s)) as [w1 a1] eqn:Q1.
  erewrite bind_return by (apply call_run; exact Q1).
  cbn [events final result].
  erewrite bind_return by reflexivity.
  cbn [events final result].
  destruct (PyNum.ne (PInt (meta_count a1)) expected) eqn:E1.
  { erewrite bind_exit by reflexivity. cbn [events final result app].
    right. split; [reflexivity |].
    exists [], None, a1, [Log INFO [Lit "Aggregation without filters:"]],
      (got_wanted class_name (meta_count a1) " objects, wanted " expected).
    split; [reflexivity |]. split; [reflexivity |].
    split; [apply only_logs_cons, only_logs_nil |].
    split; [unfold wrong_count, wanted_count; now rewrite E1 |].
    now apply report_objects. }
  erewrite bind_return by reflexivity.
  cbn [events final result].
  destruct (PyNum.ne (PInt (index_id_count a1)) expected) eqn:E2.
  { erewrite bind_exit by reflexivity. cbn [events final result app].
    right. split; [reflexivity |].
    exists [], None, a1,
      [Log INFO [Lit "Aggregation without filters:"];
       Log SUCCESS
         (got_wanted class_name (meta_count a1) " objects, wanted " expected)],
      (got_wanted class_name (index_id_count a1) " props, wanted " expected).
    split; [reflexivity |]. split; [reflexivity |].
    split; [apply only_logs_cons, only_logs_cons, only_logs_nil |].
    split; [unfold wrong_count, wanted_count; rewrite E2; apply orb_true_r |].
    now apply report_props. }
  erewrite bind_return by reflexivity.
  cbn [events final result].
  erewrite bind_return by reflexivity.
  cbn [events final result].
  destruct (query_aggregate class_name (Some not_divisible_by_four) w1)
    as [w2 a2] eqn:Q2.
  erewrite bind_return by (apply call_run; exact Q2).
  cbn [events final result].
  destruct (PyNum.ne (PInt (meta_count a2)) filtered) eqn:E3.
  { erewrite bind_exit by reflexivity. cbn [events final result app].
    right. split; [reflexivity |].
    exists [Aggregate class_name None a1;
            Log INFO [Lit "Aggregation without filters:"];
            Log SUCCESS
              (got_wanted class_name (meta_count a1) " objects, wanted "
                 expected);
            Log SUCCESS
              (got_wanted class_name (index_id_count a1) " props, wanted "
                 expected);
            Log INFO [Lit "Aggregation with filters"]],
      (Some not_divisible_by_four), a2, [],
      (got_wanted class_name (meta_count a2) " objects, wanted " filtered).
    split; [reflexivity |].
    split; [cbn [existsb dataset_mismatch wanted_count]; unfold wrong_count;
            now rewrite E1, E2 |].
    split; [apply only_logs_nil |].
    split; [unfold wrong_count, wanted_count; now rewrite E3 |].
    now apply report_objects. }
  erewrite bind_return by reflexivity.
  cbn [events final result].
  destruct (PyNum.ne (PInt (index_id_count a2)) filtered) eqn:E4.
  - right. split; [reflexivity |].
    exists [Aggregate class_name None a1;
            Log INFO [Lit "Aggregation without filters:"];
            Log SUCCESS
              (got_wanted class_name (meta_count a1) " objects, wanted "
                 expected);
            Log SUCCESS
              (got_wanted class_name (index_id_count a1) " props, wanted "
                 expected);
            Log INFO [Lit "Aggregation with filters"]],
      (Some not_divisible_by_four), a2,
      [Log SUCCESS
         (got_wanted class_name (meta_count a2) " objects, wanted " filtered)],
      (got_wanted class_name (index_id_count a2) " props, wanted " filtered).
    split; [reflexivity |].
    split; [cbn [existsb dataset_mismatch wanted_count]; unfold wrong_count;
            now rewrite E1, E2 |].
    split; [apply only_logs_cons, only_logs_nil |].
    split; [unfold wrong_count, wanted_count; rewrite E4; apply orb_true_r |].
    now apply report_props.
  - left. split; [| reflexivity].
    cbn [events app existsb dataset_mismatch wanted_count].
    unfold wrong_count. now rewrite E1, E2, E3, E4.
Qed.

End Dataset.

(** Once the unfiltered aggregation has passed, the filtered aggregation
    is answered with counts that are both compared with the filtered
    expectation: the run returns when neither differs from it, and ends in
    [sys.exit(1)], the differing count and the expectation logged last,
    when either does. *)
Lemma filtered_counts_checked {W : Type} `{World W}
    (class_name : string) (expected filtered : pynum) (s : state W)
    (w1 w2 : W) (a1 a2 : aggregate_result) :
  expected_filtered_count expected = Return filtered ->
  query_aggregate class_name None (world s) = (w1, a1) ->
  wrong_count expected a1 = false ->
  query_aggregate class_name (Some not_divisible_by_four) w1 = (w2, a2) ->
  (wrong_count filtered a2 = false ->
     result (validate_dataset class_name expected s) = Return tt) /\
  (wrong_count filtered a2 = true ->
     result (validate_dataset class_name expected s) = Exit 1 /\
     exists evs msg,
       events (validate_dataset class_name expected s)
       = evs ++ [Log ERROR msg] /\
       count_report class_name filtered a2 msg).
Proof.
  intros Hf Q1 Hpass Q2. unfold wrong_count in Hpass.
  apply orb_false_iff in Hpass as [E1 E2].
  unfold validate_dataset. rewrite Hf, bind_lift_return. unfold check_count.
  erewrite bind_return by (apply call_run; exact Q1).
  cbn [events final result].
  erewrite bind_return by reflexivity. cbn [events final result].
  rewrite E1.
  erewrite bind_return by reflexivity. cbn [events final result].
  rewrite E2.
  erewrite bind_return by reflexivity. cbn [events final result].
  erewrite bind_return by reflexivity. cbn [events final result].
  erewrite bind_return by (apply call_run; exact Q2).
  cbn [events final result].
  unfold wrong_count.
  destruct (PyNum.ne (PInt (meta_count a2)) filtered) eqn:E3.
  - erewrite bind_exit by reflexivity. cbn [events final result orb].
    split; [discriminate |]. intros _. split; [reflexivity |].
    exists [Aggregate class_name None a1;
            Log INFO [Lit "Aggregation without filters:"];
            Log SUCCESS
              (got_wanted class_name (meta_count a1) " objects, wanted "
                 expected);
            Log SUCCESS
              (got_wanted class_name (index_id_count a1) " props, wanted "
                 expected);
            Log INFO [Lit "Aggregation with filters"];
            Aggregate class_name (Some not_divisible_by_four) a2],
      (got_wanted class_name (meta_count a2) " objects, wanted " filtered).
    split; [reflexivity | now apply report_objects].
  - erewrite bind_return by reflexivity. cbn [events final result orb].
    destruct (PyNum.ne (PInt (index_id_count a2)) filtered) eqn:E4.
    + split; [discriminate |]. intros _. split; [reflexivity |].
      exists [Aggregate class_name None a1;
            Log INFO [Lit "Aggregation without filters:"];
            Log SUCCESS
              (got_wanted class_name (meta_count a1) " objects, wanted "
                 expected);
            Log SUCCESS
              (got_wanted class_name (index_id_count a1) " props, wanted "
                 expected);
            Log INFO [Lit "Aggregation with filters"];
            Aggregate class_name (Some not_divisible_by_four) a2;
            Log SUCCESS
              (got_wanted class_name (meta_count a2) " objects, wanted "
                 filtered)],
        (got_wanted class_name (index_id_count a2) " props, wanted " filtered).
      split; [reflexivity | now apply report_props].
    + split; [reflexivity | discriminate].
Qed.


(** C3, counterexample to the truncated reading: with five live records
    the store reports three that are not divisible by four, which is
    [5 * 3 / 4] truncated, for both counts, and the run still ends in
    [sys.exit(1)], having logged that it wanted 3.75. *)
Lemma truncated_filtered_count_is_rejected :
  (5 * 3) / 4 = 3 /\
  Z.quot (5 * 3) 4 = 3 /\
  In (Aggregate "C" (Some not_divisible_by_four)
        {| meta_count := 3; index_id_count := 3 |})
     (events (@validate_dataset _ (EchoStore.instance Samples.five_echo) "C"
                (PInt 5) EchoStore.start)) /\
  result (@validate_dataset _ (EchoStore.instance Samples.five_echo) "C"
            (PInt 5) EchoStore.start) = Exit 1 /\
  last (events (@validate_dataset _ (EchoStore.instance Samples.five_echo) "C"
                  (PInt 5) EchoStore.start)) (Log INFO [])
  = Log ERROR
      (got_wanted "C" 3 " objects, wanted "
         (PFloat (S754_finite false 8444249301319680 (-51)))).
Proof.
  split; [reflexivity |]. split; [reflexivity |].
  split; [vm_compute; do 5 right; left; reflexivity |].
  split; vm_compute; reflexivity.
Qed.

(** C7 (as amended): a stage validation ends without [sys.exit] and
    without having seen a rejected answer, or ends in [sys.exit(1)] at the
    first rejected answer with its message logged last: the identifier,
    the index found and the index wanted for an identity lookup, the index
    found and the index wanted for a filter lookup, and only the length
    found and the length wanted, neither index nor collection, for a
    vector search.  A dataset validation returns without having seen a
    wrong count, or ends in [sys.exit(1)] at the first aggregation with a
    wrong count, the collection, the count found and the count wanted
    logged last. *)
Theorem mismatch_is_fatal_and_reported {W : Type} `{World W}
    (class_name stage_label : string) (start end_ : Z)
    (expected filtered : pynum) (s s' : state W) :
  expected_filtered_count expected = Return filtered ->
  verdict (validate_stage class_name start end_ stage_label s) /\
  dataset_verdict class_name expected filtered
    (validate_dataset class_name expected s').
Proof.
  intros Hf. split.
  - apply verdict_validate_stage.
  - now apply dataset_verdict_validate_dataset.
Qed.

Lemma mismatch_is_fatal_and_reported_witness :
  expected_filtered_count (PInt 8)
  = Return (PFloat (S754_finite false 6755399441055744 (-50))) /\
  (verdict (@validate_stage _ (EchoStore.instance Samples.short_echo)
              "C" 7 8 "s" EchoStore.start) /\
   dataset_verdict "C" (PInt 8)
     (PFloat (S754_finite false 6755399441055744 (-50)))
     (@validate_dataset _ (EchoStore.instance Samples.short_echo) "C"
        (PInt 8) EchoStore.start)).
Proof.
  split; [vm_compute; reflexivity |].
  apply (@mismatch_is_fatal_and_reported _
           (EchoStore.instance Samples.short_echo)).
  vm_compute; reflexivity.
Defined.

(** C7, counterexample to the claim as worded: a vector search for index
    7 of collection C that is answered with 19 results ends the run with
    exit status 1, and the line logged last names the two lengths only;
    no line of the log carries the index, its identifier or the
    collection. *)
Lemma search_mismatch_names_no_index :
  result (@validate_stage _ (EchoStore.instance Samples.short_echo)
            "C" 7 8 "s" EchoStore.start) = Exit 1 /\
  last (events (@validate_stage _ (EchoStore.instance Samples.short_echo)
                  "C" 7 8 "s" EchoStore.start)) (Log INFO [])
  = Log ERROR [Lit "vector search has result len "; FInt 19;
               Lit " wanted "; FInt 20] /\
  logs_mention (FInt 7)
    (events (@validate_stage _ (EchoStore.instance Samples.short_echo)
               "C" 7 8 "s" EchoStore.start)) = false /\
  logs_mention (FStr "00000000-0000-0000-0000-000000000007")
    (events (@validate_stage _ (EchoStore.instance Samples.short_echo)
               "C" 7 8 "s" EchoStore.start)) = false /\
  logs_mention (FStr "C")
    (events (@validate_stage _ (EchoStore.instance Samples.short_echo)
               "C" 7 8 "s" EchoStore.start)) = false.
Proof. repeat split; vm_compute; reflexivity. Qed.

(* ================================================================== *)
(** * What a part of the script leaves out of its trace *)
(* ================================================================== *)

Section Only.

Context {W : Type} `{World W}.
Variable P : event -> Prop.















End Only.





Section Returns.

Context {W : Type} `{World W} {X : Type}.
Variable f : event -> list X.





End Returns.




(* ================================================================== *)
(** * The dataset validations of the script *)
(* ================================================================== *)

Section Checkpoints.

Context {W : Type} `{World W}.






End Checkpoints.



Section Orchestration.

Context {W : Type} `{World W}.



End Orchestration.



(* ================================================================== *)
(** * Dividing an integer by four *)
(* ================================================================== *)

Module DivFacts.
Import PyFloat.

Lemma digits2_pos_bounds p :
  2 ^ (Zpos (digits2_pos p) - 1) <= Zpos p < 2 ^ Zpos (digits2_pos p).
Proof.
  induction p as [p IH | p IH |]; cbn [digits2_pos].
  - rewrite Pos2Z.inj_succ, (Pos2Z.inj_xI p).
    replace (Z.succ (Zpos (digits2_pos p)) - 1)
      with (Z.succ (Zpos (digits2_pos p) - 1)) by lia.
    rewrite !Z.pow_succ_r by lia. lia.
  - rewrite Pos2Z.inj_succ, (Pos2Z.inj_xO p).
    replace (Z.succ (Zpos (digits2_pos p)) - 1)
      with (Z.succ (Zpos (digits2_pos p) - 1)) by lia.
    rewrite !Z.pow_succ_r by lia. lia.
  - split; [vm_compute; discriminate | reflexivity].
Qed.

Lemma Zdigits2_unique m d :
  2 ^ (d - 1) <= m < 2 ^ d -> 0 < d -> Zdigits2 m = d.
Proof.
  intros Hm Hd.
  assert (Hpos : 0 < m).
  { assert (0 < 2 ^ (d - 1)) by (apply Z.pow_pos_nonneg; lia). lia. }
  destruct m as [| p |]; try lia. cbn [Zdigits2].
  pose proof (digits2_pos_bounds p) as Hp.
  set (d' := Zpos (digits2_pos p)) in *.
  assert (Hd' : 0 < d') by reflexivity.
  destruct (Z.lt_trichotomy d' d) as [Hlt | [Heq | Hgt]]; [| exact Heq |].
  - assert (2 ^ d' <= 2 ^ (d - 1)) by (apply Z.pow_le_mono_r; lia). lia.
  - assert (2 ^ d <= 2 ^ (d' - 1)) by (apply Z.pow_le_mono_r; lia). lia.
Qed.

Lemma Zdigits2_shift p k :
  0 <= k -> Zdigits2 (Zpos p * 2 ^ k) = Zdigits2 (Zpos p) + k.
Proof.
  intros Hk. cbn [Zdigits2]. pose proof (digits2_pos_bounds p) as Hp.
  set (d := Zpos (digits2_pos p)) in *.
  assert (Hd : 0 < d) by reflexivity.
  assert (H2 : 0 < 2 ^ k) by (apply Z.pow_pos_nonneg; lia).
  apply Zdigits2_unique; [| lia].
  replace (d + k - 1) with (d - 1 + k) by lia.
  rewrite !Z.pow_add_r by lia. nia.
Qed.

Lemma div_eucl_pair a b : Z.div_eucl a b = (a / b, a mod b).
Proof. unfold Z.div, Z.modulo. now destruct (Z.div_eucl a b). Qed.

(** The quotient of a positive integer below [2^53] by four is computed
    without rounding. *)
Lemma fdiv_by_four p :
  Zpos p < 2 ^ 53 ->
  exists q e,
    fdiv (S754_finite false p 0) (S754_finite false 4 0)
    = S754_finite false q e /\
    e < 0 /\ Zpos q * 4 = Zpos p * 2 ^ (- e).
Proof.
  intros Hp. pose proof (digits2_pos_bounds p) as Hb.
  set (d := Zpos (digits2_pos p)) in *.
  assert (Hd : 0 < d) by reflexivity.
  assert (Hd53 : d <= 53).
  { destruct (Z.le_gt_cases d 53) as [Hle | Hgt]; [exact Hle |].
    assert (2 ^ 53 <= 2 ^ (d - 1)) by (apply Z.pow_le_mono_r; lia). lia. }
  assert (Hx : 0 < Zpos p * 2 ^ (53 - d)).
  { assert (0 < 2 ^ (53 - d)) by (apply Z.pow_pos_nonneg; lia). lia. }
  destruct (Zpos p * 2 ^ (53 - d)) as [| q |] eqn:Eq; try lia.
  exists q, (d - 55).
  split; [| split; [lia |]].
  2:{ rewrite <- Eq. replace (- (d - 55)) with (2 + (53 - d)) by lia.
      rewrite Z.pow_add_r by lia. change (2 ^ 2) with 4. ring. }
  unfold fdiv, SFdiv, SFdiv_core_binary.
  change (Zdigits2 (Zpos p)) with d. change (Zdigits2 4) with 3.
  replace (Z.min (fexp prec emax (d + 0 - (3 + 0))) (0 - 0)) with (d - 56)
    by (unfold fexp, emin, prec, emax; lia).
  replace (0 - 0 - (d - 56)) with (56 - d) by lia.
  destruct (56 - d) as [| sh |] eqn:Es; try lia.
  rewrite Z.shiftl_mul_pow2 by lia. rewrite <- Es.
  replace (Zpos p * 2 ^ (56 - d)) with (Zpos (q~0) * 4).
  2:{ rewrite (Pos2Z.inj_xO q), <- Eq.
      replace (56 - d) with (3 + (53 - d)) by lia.
      rewrite Z.pow_add_r by lia. change (2 ^ 3) with 8. ring. }
  rewrite div_eucl_pair, Z.div_mul, Z.mod_mul by lia.
  change (new_location 4 0) with loc_Exact.
  cbv beta iota.
  unfold binary_round_aux, shr_fexp.
  assert (Hq : Zdigits2 (Zpos q) = 53).
  { rewrite <- Eq. rewrite Zdigits2_shift by lia.
    change (Zdigits2 (Zpos p)) with d. lia. }
  assert (Hq0 : Zdigits2 (Zpos q~0) = 54).
  { cbn [Zdigits2 digits2_pos] in *. rewrite Pos2Z.inj_succ. lia. }
  rewrite Hq0.
  replace (fexp prec emax (54 + (d - 56)) - (d - 56)) with 1
    by (unfold fexp, emin, prec, emax; lia).
  cbn [shr shr_record_of_loc iter_pos shr_1 orb shr_m loc_of_shr_record
       round_nearest_even xorb].
  rewrite Hq.
  replace (fexp prec emax (53 + (d - 56 + 1)) - (d - 56 + 1)) with 0
    by (unfold fexp, emin, prec, emax; lia).
  cbn [shr shr_m].
  replace (d - 56 + 1) with (d - 55) by lia.
  destruct (Z.leb_spec (d - 55) (emax - prec)) as [_ | Hbad];
    [reflexivity | unfold emax, prec in Hbad; lia].
Qed.

End DivFacts.

Lemma ne_int_self n : PyNum.ne (PInt n) (PInt n) = false.
Proof. unfold PyNum.ne, PyNum.eq. cbn. now rewrite Z.compare_refl. Qed.

(** For an integer [n] with [0 <= 3 * n < 2^53] the filtered expectation
    is the exact quotient [3 * n / 4]: an integer [k] equals it exactly
    when [4 * k = 3 * n]. *)
Lemma filtered_of_int n :
  0 <= n -> 3 * n < 2 ^ 53 ->
  exists filtered,
    expected_filtered_count (PInt n) = Return filtered /\
    forall k, PyNum.eq (PInt k) filtered = (4 * k =? 3 * n).
Proof.
  intros Hn Hb. unfold expected_filtered_count.
  cbn [PyNum.mul obind PyNum.truediv].
  destruct (n * 3) as [| p |] eqn:Ep; try lia.
  - exists (PFloat (S754_zero false)). split; [reflexivity |].
    intros k. unfold PyNum.eq. cbn [PyNum.compare int_compare].
    destruct (Z.compare_spec k 0); destruct (Z.eqb_spec (4 * k) (3 * n));
      try reflexivity; lia.
  - destruct (DivFacts.fdiv_by_four p) as (q & e & Hf & He & Hq); [lia |].
    exists (PFloat (S754_finite false q e)).
    cbn [int_truediv of_option obind]. rewrite Hf. split; [reflexivity |].
    intros k. unfold PyNum.eq. cbn [PyNum.compare int_compare signed].
    unfold int_cmp_finite.
    destruct (0 <=? e) eqn:E; [apply Z.leb_le in E; lia |].
    assert (Hc : 0 < 2 ^ (- e)) by (apply Z.pow_pos_nonneg; lia).
    destruct (Z.compare_spec (k * 2 ^ (- e)) (Zpos q));
      destruct (Z.eqb_spec (4 * k) (3 * n)); try reflexivity; nia.
Qed.

(** C3 (as amended): for an integer expected total [n] with
    [0 <= 3 * n < 2^53], once the unfiltered aggregation has passed, the
    dataset validation returns exactly when the filtered object count [c]
    and the filtered property count [c'] satisfy [4 * c = 3 * n] and
    [4 * c' = 3 * n]: both are compared with the exact quotient
    [n * 3 / 4], which is not truncated, so that no count passes when
    [3 * n] is not a multiple of four.  Otherwise the run ends in
    [sys.exit(1)], having logged last the first count that differs
    together with the quotient. *)
Theorem filtered_counts_against_true_quotient {W : Type} `{World W}
    (class_name : string) (n : Z) (s : state W)
    (w1 w2 : W) (a1 a2 : aggregate_result) :
  0 <= n -> 3 * n < 2 ^ 53 ->
  query_aggregate class_name None (world s) = (w1, a1) ->
  meta_count a1 = n -> index_id_count a1 = n ->
  query_aggregate class_name
    (Some {| operator := "Equal"; path := ["is_divisible_by_four"%string];
             value := valueBoolean false |}) w1 = (w2, a2) ->
  (result (validate_dataset class_name (PInt n) s) = Return tt <->
   4 * meta_count a2 = 3 * n /\ 4 * index_id_count a2 = 3 * n) /\
  (result (validate_dataset class_name (PInt n) s) = Return tt \/
   result (validate_dataset class_name (PInt n) s) = Exit 1 /\
   exists evs got what quotient,
     events (validate_dataset class_name (PInt n) s)
     = evs ++ [Log ERROR [FStr class_name; Lit ": got "; FInt got; Lit what;
                          FNum quotient]] /\
     (got = meta_count a2 /\ what = " objects, wanted "%string \/
      got = index_id_count a2 /\ what = " props, wanted "%string) /\
     4 * got <> 3 * n /\
     forall k, PyNum.eq (PInt k) quotient = (4 * k =? 3 * n)).
Proof.
  intros Hn Hb Q1 Hm Hi Q2.
  destruct (filtered_of_int n Hn Hb) as (filtered & Hf & Hq).
  assert (Hpass : wrong_count (PInt n) a1 = false).
  { unfold wrong_count. now rewrite Hm, Hi, ne_int_self. }
  destruct (filtered_counts_checked class_name (PInt n) filtered s w1 w2 a1 a2
              Hf Q1 Hpass Q2) as [Hgood Hbad].
  assert (Hw : wrong_count filtered a2
               = negb ((4 * meta_count a2 =? 3 * n)
                       && (4 * index_id_count a2 =? 3 * n))).
  { unfold wrong_count, PyNum.ne. now rewrite !Hq, negb_andb. }
  destruct (wrong_count filtered a2) eqn:Ew.
  - destruct (Hbad eq_refl) as (Hex & evs & msg & Hev & Hrep).
    symmetry in Hw. apply negb_true_iff, andb_false_iff in Hw.
    split.
    + split; [rewrite Hex; discriminate |].
      intros [H1 H2]. apply Z.eqb_eq in H1, H2. destruct Hw; congruence.
    + right. split; [exact Hex |].
      destruct Hrep as [Hne | Heq Hne].
      * exists evs, (meta_count a2), " objects, wanted "%string, filtered.
        split; [exact Hev |]. split; [now left |]. split; [| exact Hq].
        unfold PyNum.ne in Hne. rewrite Hq in Hne.
        apply negb_true_iff, Z.eqb_neq in Hne. exact Hne.
      * exists evs, (index_id_count a2), " props, wanted "%string, filtered.
        split; [exact Hev |]. split; [now right |]. split; [| exact Hq].
        unfold PyNum.ne in Hne. rewrite Hq in Hne.
        apply negb_true_iff, Z.eqb_neq in Hne. exact Hne.
  - symmetry in Hw. apply negb_false_iff, andb_true_iff in Hw as [H1 H2].
    apply Z.eqb_eq in H1, H2.
    split; [| left; now apply Hgood].
    split; [intros _; now split | intros _; now apply Hgood].
Qed.

Lemma filtered_counts_against_true_quotient_witness :
  0 <= 8 /\ 3 * 8 < 2 ^ 53 /\
  @query_aggregate _ (EchoStore.instance Samples.quiet_echo) "C" None tt
  = (tt, {| meta_count := 8; index_id_count := 8 |}) /\
  @query_aggregate _ (EchoStore.instance Samples.quiet_echo) "C"
    (Some {| operator := "Equal"; path := ["is_divisible_by_four"%string];
             value := valueBoolean false |}) tt
  = (tt, {| meta_count := 6; index_id_count := 6 |}) /\
  (result (@validate_dataset _ (EchoStore.instance Samples.quiet_echo) "C"
             (PInt 8) EchoStore.start) = Return tt <->
   4 * 6 = 3 * 8 /\ 4 * 6 = 3 * 8).
Proof.
  split; [lia |]. split; [reflexivity |].
  split; [reflexivity |]. split; [reflexivity |].
  exact (proj1 (@filtered_counts_against_true_quotient _
                  (EchoStore.instance Samples.quiet_echo) "C" 8
                  EchoStore.start tt tt
                  {| meta_count := 8; index_id_count := 8 |}
                  {| meta_count := 6; index_id_count := 6 |}
                  ltac:(lia) eq_refl eq_refl eq_refl eq_refl eq_refl)).
Defined.

Lemma requests_app a b : requests (a ++ b) = requests a ++ requests b.
Proof. unfold requests. apply flat_map_app. Qed.

Section Requests.

Context {W : Type} `{World W}.





End Requests.



(** X2: the calls a dataset validation makes to the store are the
    aggregation without a filter, then the aggregation filtered on
    [is_divisible_by_four = false], and nothing else: an initial segment
    of the two when the run stops early, both when it returns. *)
Theorem dataset_validation_requests {W : Type} `{World W}
    (class_name : string) (expected : pynum) (s : state W) :
  tracks requests (validate_dataset class_name expected s)
    [AskAggregate class_name None;
     AskAggregate class_name
       (Some {| operator := "Equal"; path := ["is_divisible_by_four"%string];
                value := valueBoolean false |})].
Proof.
  unfold validate_dataset. apply (tracks_bind_lift requests eq_refl).
  intros filtered _. unfold check_count.
  eapply tracks_eq.
  - repeat (eapply (tracks_bind requests requests_app); [| intros ? ?]);
      try (apply (tracks_emit requests); reflexivity);
      try (eapply (tracks_call requests _ _ [AskAggregate _ _]); intros;
           reflexivity);
      match goal with
      | |- context [if ?c then _ else _] =>
          destruct c; unfold fatal, success, logger;
          [ apply (tracks_bind requests requests_app _ _ [] []);
            [apply (tracks_emit requests); reflexivity
            | intros; apply (tracks_exit requests eq_refl)]
          | apply (tracks_emit requests); reflexivity ]
      end.
  - reflexivity.
Qed.

(* ================================================================== *)
(** * Resetting the schema *)
(* ================================================================== *)

Section Schema.

Context {W : Type} `{World W}.


End Schema.


(* ================================================================== *)
(** * Answers the validators cannot read *)
(* ================================================================== *)

Ltac settle_unreadable :=
  unfold stops_at_unreadable; cbn [events result];
  let e := fresh "e" in let x := fresh "x" in let Hu := fresh "Hu" in
  let Hin := fresh "Hin" in
  intros e x Hu Hin; cbn [In] in Hin;
  repeat (destruct Hin as [<- | Hin]; [cbn in Hu; try discriminate |]);
  try contradiction.

Section Unreadable.

Context {W : Type} `{World W}.

Lemma stops_ret {A} (a : A) (s : state W) : stops_at_unreadable (ret a s).
Proof. intros e x _ []. Qed.

Lemma stops_lift {A} (o : outcome A) (s : state W) :
  stops_at_unreadable (lift o s).
Proof. intros e x _ []. Qed.

Lemma stops_logger lvl msg (s : state W) :
  stops_at_unreadable (logger lvl msg s).
Proof. intros e x Hu [<- | []]. discriminate. Qed.

Lemma stops_bind {A B} (m : M W A) (k : A -> M W B) (s : state W) :
  stops_at_unreadable (m s) ->
  (forall a s', stops_at_unreadable (k a s')) ->
  stops_at_unreadable (bind m k s).
Proof.
  intros Hm Hk e x Hu. unfold bind.
  destruct (result (m s)) as [a | c | ex] eqn:E; cbn [events result].
  - intros Hin. apply in_app_or in Hin as [Hin | Hin].
    + destruct (Hm e x Hu Hin) as [Hr _]. congruence.
    + destruct (Hk a (final (m s)) e x Hu Hin) as (Hr & evs & ->).
      split; [assumption |]. exists (events (m s) ++ evs).
      now rewrite app_assoc.
  - intros Hin. destruct (Hm e x Hu Hin) as [Hr _]. congruence.
  - intros Hin. destruct (Hm e x Hu Hin) as [Hr Hev].
    split; [congruence | assumption].
Qed.

Lemma stops_for_each {A} (xs : list A) (body : A -> M W unit) :
  (forall x s, stops_at_unreadable (body x s)) ->
  forall s, stops_at_unreadable (for_each xs body s).
Proof.
  intros Hb. induction xs as [| x xs IH]; intros s; cbn [for_each].
  - apply stops_ret.
  - apply stops_bind; auto.
Qed.

Lemma stops_check_by_uuid class_name end_ i (s : state W) :
  stops_at_unreadable (check_by_uuid class_name end_ i s).
Proof.
  unfold check_by_uuid, bind, lift, call, when, fatal, success, logger,
    emit, sys_exit, ret.
  destruct (uuid_str i) as [id | c | ex]; cbn [result events final];
    [| settle_unreadable | settle_unreadable].
  destruct (data_object_get_by_id id class_name (world s)) as [w [found |]];
    cbn [of_option result events final].
  - destruct (index_id found =? i); cbn [negb result events final];
      destruct (i mod 10000 =? 0); cbn [result events final app];
      settle_unreadable.
  - settle_unreadable. injection Hu as <-.
    split; [reflexivity |]. now exists [].
Qed.

Lemma stops_check_by_filter class_name end_ i (s : state W) :
  stops_at_unreadable (check_by_filter class_name end_ i s).
Proof.
  unfold check_by_filter, bind, lift, call, when, fatal, success, logger,
    emit, sys_exit, ret.
  destruct (query_do
              (with_where (index_id_equal i) (query_get class_name "index_id"))
              (world s)) as [w [| first rest]];
    cbn [nth_error of_option result events final].
  - settle_unreadable. injection Hu as <-.
    split; [reflexivity |]. now exists [].
  - destruct (index_id first =? i); cbn [negb result events final];
      destruct (i mod 10000 =? 0); cbn [result events final app];
      settle_unreadable.
Qed.

Lemma search_is_readable q r : is_search q = true -> unreadable (Get q r) = None.
Proof. intros Hq. destruct r; cbn; [now rewrite Hq | reflexivity]. Qed.

Lemma stops_search_call q (s : state W) :
  is_search q = true -> stops_at_unreadable (call (query_do q) (Get q) s).
Proof.
  intros Hq e x Hu. unfold call. destruct (query_do q (world s)) as [w r].
  cbn [events]. intros [<- | []].
  rewrite (search_is_readable q r Hq) in Hu. discriminate.
Qed.

Lemma stops_check_result_len r end_ i (s : state W) :
  stops_at_unreadable (check_result_len r end_ i s).
Proof.
  unfold check_result_len, bind, when, fatal, success, logger, emit,
    sys_exit, ret.
  destruct (Z.of_nat (List.length r) =? limit); cbn [negb result events final];
    destruct (i mod 10000 =? 0); cbn [result events final app];
    settle_unreadable.
Qed.

Lemma stops_check_vector_search class_name end_ i (s : state W) :
  stops_at_unreadable (check_vector_search class_name end_ i s).
Proof.
  unfold check_vector_search.
  apply stops_bind; [apply stops_lift |]. intros id s1.
  apply stops_bind; [now apply stops_search_call |]. intros r s2.
  apply stops_check_result_len.
Qed.

Lemma stops_check_vector_search_filtered class_name stage_label end_ i
    (s : state W) :
  stops_at_unreadable
    (check_vector_search_filtered class_name stage_label end_ i s).
Proof.
  unfold check_vector_search_filtered.
  apply stops_bind; [apply stops_lift |]. intros id s1.
  apply stops_bind; [now apply stops_search_call |]. intros r s2.
  apply stops_check_result_len.
Qed.

End Unreadable.

(** X4: when the store has no object for an identifier a stage
    validation asks for, or no row for its filter on [index_id], the
    validation does not report it through [fatal]: that answer is the last
    event of the run, which ends with the [TypeError], respectively the
    [IndexError], that reading the missing answer raises. *)
Theorem unreadable_answer_raises {W : Type} `{World W}
    (class_name stage_label : string) (start end_ : Z) (s : state W)
    (e : event) (x : exn) :
  unreadable e = Some x ->
  In e (events (validate_stage class_name start end_ stage_label s)) ->
  result (validate_stage class_name start end_ stage_label s) = Raise x /\
  exists evs,
    events (validate_stage class_name start end_ stage_label s) = evs ++ [e].
Proof.
  revert e x.
  change (stops_at_unreadable
            (validate_stage class_name start end_ stage_label s)).
  unfold validate_stage.
  repeat (apply stops_bind; [| intros ? ?]);
    lazymatch goal with
    | |- stops_at_unreadable (lift _ _) => apply stops_lift
    | |- stops_at_unreadable (logger _ _ _) => apply stops_logger
    | |- stops_at_unreadable (for_each _ (check_by_uuid _ _) _) =>
        apply stops_for_each; intros; apply stops_check_by_uuid
    | |- stops_at_unreadable (for_each _ (check_by_filter _ _) _) =>
        apply stops_for_each; intros; apply stops_check_by_filter
    | |- stops_at_unreadable (for_each _ (check_vector_search _ _) _) =>
        apply stops_for_each; intros; apply stops_check_vector_search
    | |- stops_at_unreadable
           (for_each _ (check_vector_search_filtered _ _ _) _) =>
        apply stops_for_each; intros; apply stops_check_vector_search_filtered
    end.
Qed.

Lemma unreadable_answer_raises_witness :
  unreadable (GetById "00000000-0000-0000-0000-000000000001" "C" None)
  = Some TypeError /\
  In (GetById "00000000-0000-0000-0000-000000000001" "C" None)
     (events (validate_stage "C" 0 10 "s" MemStore.start)) /\
  result (validate_stage "C" 0 10 "s" MemStore.start) = Raise TypeError /\
  exists evs,
    events (validate_stage "C" 0 10 "s" MemStore.start)
    = evs ++ [GetById "00000000-0000-0000-0000-000000000001" "C" None].
Proof.
  assert (Hin : In (GetById "00000000-0000-0000-0000-000000000001" "C" None)
                   (events (validate_stage "C" 0 10 "s" MemStore.start)))
    by (vm_compute; right; left; reflexivity).
  split; [reflexivity |]. split; [exact Hin |].
  exact (unreadable_answer_raises "C" "s" 0 10 MemStore.start
           (GetById "00000000-0000-0000-0000-000000000001" "C" None)
           TypeError eq_refl Hin).
Defined.
(* ================================================================== *)
(** * Leaving the process *)
(* ================================================================== *)

Lemma no_exit_iterate v c : Json.iterate v <> Exit c.
Proof. destruct v; discriminate. Qed.

Lemma no_exit_getitem v key c : Json.getitem v key <> Exit c.
Proof. destruct v; cbn; try discriminate. apply no_exit_of_option. Qed.

Lemma no_exit_contains key v c : Json.contains key v <> Exit c.
Proof. destruct v; discriminate. Qed.

Lemma no_exit_has_error_list item c : has_error_list item <> Exit c.
Proof.
  unfold has_error_list.
  apply no_exit_obind; [intros; apply no_exit_contains |].
  intros [] c1; [| discriminate].
  apply no_exit_obind; [intros; apply no_exit_getitem |]. intros r c2.
  apply no_exit_obind; [intros; apply no_exit_contains |].
  intros [] c3; [| discriminate].
  apply no_exit_obind; [intros; apply no_exit_getitem |]. intros es c4.
  apply no_exit_contains.
Qed.

Lemma no_exit_error_list item c : error_list item <> Exit c.
Proof.
  unfold error_list.
  apply no_exit_obind; [intros; apply no_exit_getitem |]. intros r c2.
  apply no_exit_obind; [intros; apply no_exit_getitem |]. intros es c4.
  apply no_exit_getitem.
Qed.

Lemma no_exit_expected_filtered_count expected c :
  expected_filtered_count expected <> Exit c.
Proof.
  unfold expected_filtered_count.
  apply no_exit_obind; [intros; apply no_exit_mul |].
  intros; apply no_exit_truediv.
Qed.

Section Exits.

Context {W : Type} `{World W}.

Lemma ne_ret {A} (a : A) : never_exits (ret a : M W A).
Proof. intros s c. discriminate. Qed.

Lemma ne_lift {A} (o : outcome A) :
  (forall c, o <> Exit c) -> never_exits (lift o : M W A).
Proof. intros Ho s c. apply Ho. Qed.

Lemma ne_logger lvl msg : never_exits (W := W) (logger lvl msg).
Proof. intros s c. discriminate. Qed.

Lemma ne_call {A} (op : W -> W * A) ev : never_exits (call op ev).
Proof. intros s c. unfold call. destruct (op (world s)). discriminate. Qed.

Lemma ne_command (op : W -> W) ev : never_exits (command op ev).
Proof. apply ne_call. Qed.

Lemma ne_np_rand : never_exits np_rand.
Proof.
  intros s c. unfold np_rand. destruct (np_random_rand (world s)).
  discriminate.
Qed.

Lemma ne_bind {A B} (m : M W A) (k : A -> M W B) :
  never_exits m -> (forall a, never_exits (k a)) -> never_exits (bind m k).
Proof.
  intros Hm Hk s c. unfold bind.
  destruct (result (m s)) as [a | c' | e] eqn:E; cbn [result].
  - apply Hk.
  - now apply Hm in E.
  - discriminate.
Qed.

Lemma ne_when c (m : M W unit) : never_exits m -> never_exits (when c m).
Proof. destruct c; [auto | intros _; apply ne_ret]. Qed.

Lemma ne_for_each {A} (xs : list A) (body : A -> M W unit) :
  (forall x, never_exits (body x)) -> never_exits (for_each xs body).
Proof.
  intros Hb. induction xs as [| x xs IH]; cbn [for_each].
  - apply ne_ret.
  - apply ne_bind; auto.
Qed.

Lemma ne_with_cleanup (body cleanup : M W unit) :
  never_exits body -> never_exits cleanup ->
  never_exits (with_cleanup body cleanup).
Proof.
  intros Hb Hc s c. unfold with_cleanup. cbn [result].
  destruct (result (cleanup (final (body s)))) as [[] | c' | e] eqn:E.
  - apply Hb.
  - now apply Hc in E.
  - discriminate.
Qed.

Lemma ne_handle_errors results : never_exits (W := W) (handle_errors results).
Proof.
  unfold handle_errors.
  assert (Hq : never_exits (W := W) (items <- lift (Json.iterate results) ;;
     for_each items (fun result =>
        c <- lift (has_error_list result) ;;
        when c (
          errors <- lift (error_list result) ;;
          messages <- lift (Json.iterate errors) ;;
          for_each messages (fun message =>
            text <- lift (Json.getitem message "message") ;;
            logger ERROR [FJson text]))))%py).
  { apply ne_bind; [apply ne_lift; intros; apply no_exit_iterate |].
    intros items. apply ne_for_each. intros item.
    apply ne_bind; [apply ne_lift; intros; apply no_exit_has_error_list |].
    intros c. apply ne_when.
    apply ne_bind; [apply ne_lift; intros; apply no_exit_error_list |].
    intros errors.
    apply ne_bind; [apply ne_lift; intros; apply no_exit_iterate |].
    intros messages. apply ne_for_each. intros message.
    apply ne_bind; [apply ne_lift; intros; apply no_exit_getitem |].
    intros text. apply ne_logger. }
  destruct results; solve [exact Hq | apply ne_ret].
Qed.

Lemma ne_batch_flush (callback : json -> M W unit) :
  (forall results, never_exits (callback results)) ->
  never_exits (batch_flush callback).
Proof.
  intros Hc s. unfold batch_flush.
  destruct (pending s) as [| o objects]; [apply ne_ret |].
  apply ne_bind; [| exact Hc].
  intros s' c. destruct (batch_create (o :: objects) (world s')).
  discriminate.
Qed.

Lemma ne_batch_add_data_object size (callback : json -> M W unit) o :
  (forall results, never_exits (callback results)) ->
  never_exits (batch_add_data_object size callback o).
Proof.
  intros Hc s. unfold batch_add_data_object.
  destruct (Nat.leb _ _); [now apply ne_batch_flush | apply ne_ret].
Qed.

Lemma ne_load_record class_name end_ stage_label threshold i :
  never_exits (load_record class_name end_ stage_label threshold i).
Proof.
  unfold load_record.
  apply ne_bind; [apply ne_when, ne_logger |]. intros _.
  apply ne_bind; [apply ne_np_rand |]. intros v.
  apply ne_bind.
  - apply ne_lift. intros c. unfold UUID.of_int.
    destruct ((0 <=? i) && (i <? 2 ^ 128)); discriminate.
  - intros u. apply ne_batch_add_data_object, ne_handle_errors.
Qed.

Lemma ne_load_records class_name start end_ stage_label :
  never_exits (load_records class_name start end_ stage_label).
Proof.
  unfold load_records.
  apply ne_bind; [| intros; apply ne_logger].
  apply ne_with_cleanup; [| apply ne_batch_flush, ne_handle_errors].
  apply ne_bind; [apply ne_lift; intros; apply no_exit_delete_threshold |].
  intros threshold. apply ne_for_each. intros i. apply ne_load_record.
Qed.

Lemma ne_reset_schema names : never_exits (reset_schema names).
Proof.
  unfold reset_schema. apply ne_bind; [apply ne_command |].
  intros _. apply ne_for_each. intros. apply ne_command.
Qed.

Lemma ne_delete_records class_name : never_exits (delete_records class_name).
Proof. apply ne_command. Qed.

Lemma e1_of_ne {A} (m : M W A) : never_exits m -> exits_with_1 m.
Proof. intros Hm s c Hc. now apply Hm in Hc. Qed.

Lemma e1_bind {A B} (m : M W A) (k : A -> M W B) :
  exits_with_1 m -> (forall a, exits_with_1 (k a)) -> exits_with_1 (bind m k).
Proof.
  intros Hm Hk s c. unfold bind.
  destruct (result (m s)) as [a | c' | e] eqn:E; cbn [result].
  - apply Hk.
  - intros [= <-]. now apply (Hm s).
  - discriminate.
Qed.

Lemma e1_for_each {A} (xs : list A) (body : A -> M W unit) :
  (forall x, exits_with_1 (body x)) -> exits_with_1 (for_each xs body).
Proof.
  intros Hb. induction xs as [| x xs IH]; cbn [for_each].
  - apply e1_of_ne, ne_ret.
  - apply e1_bind; auto.
Qed.

Lemma e1_check_count class_name got what wanted :
  exits_with_1 (W := W) (check_count class_name got what wanted).
Proof.
  unfold check_count. destruct (PyNum.ne (PInt got) wanted).
  - intros s c [= <-]. reflexivity.
  - apply e1_of_ne, ne_logger.
Qed.

Lemma e1_validate_dataset class_name expected :
  exits_with_1 (validate_dataset class_name expected).
Proof.
  unfold validate_dataset.
  apply e1_bind.
  { apply e1_of_ne, ne_lift. intros c.
    apply no_exit_expected_filtered_count. }
  intros filtered.
  repeat (apply e1_bind; [| intros ?]);
    lazymatch goal with
    | |- exits_with_1 (call _ _) => apply e1_of_ne, ne_call
    | |- exits_with_1 (logger _ _) => apply e1_of_ne, ne_logger
    | |- exits_with_1 (check_count _ _ _ _) => apply e1_check_count
    end.
Qed.

Lemma e1_validate_stage class_name start end_ stage_label :
  exits_with_1 (validate_stage class_name start end_ stage_label).
Proof.
  intros s c Hc.
  destruct (verdict_validate_stage class_name start end_ stage_label s)
    as [[_ Hne] | [Hex _]].
  - now apply Hne in Hc.
  - congruence.
Qed.

End Exits.

Ltac exit_status :=
  cbv beta;
  lazymatch goal with
  | |- exits_with_1 (bind _ _) =>
      apply e1_bind; [exit_status | intros ?; exit_status]
  | |- exits_with_1 (for_each _ _) =>
      apply e1_for_each; intros ?; exit_status
  | |- exits_with_1 (logger _ _) => apply e1_of_ne, ne_logger
  | |- exits_with_1 skipped => apply e1_of_ne, ne_logger
  | |- exits_with_1 (command _ _) => apply e1_of_ne, ne_command
  | |- exits_with_1 (reset_schema _) => apply e1_of_ne, ne_reset_schema
  | |- exits_with_1 (load_records _ _ _ _) => apply e1_of_ne, ne_load_records
  | |- exits_with_1 (delete_records _) => apply e1_of_ne, ne_delete_records
  | |- exits_with_1 (validate_dataset _ _) => apply e1_validate_dataset
  | |- exits_with_1 (validate_stage _ _ _ _) => apply e1_validate_stage
  | |- exits_with_1 (lift _) =>
      apply e1_of_ne, ne_lift; intros ?; apply no_exit_mul
  end.

Lemma no_requests_handle_errors {W : Type} (results : json) (s : state W) :
  requests (events (handle_errors results s)) = [].
Proof.
  assert (Ht : tracks requests (handle_errors results s) []).
  { unfold handle_errors.
    assert (Hq : forall s : state W, tracks requests
       ((items <- lift (Json.iterate results) ;;
         for_each items (fun result =>
           c <- lift (has_error_list result) ;;
           when c (
             errors <- lift (error_list result) ;;
             messages <- lift (Json.iterate errors) ;;
             for_each messages (fun message =>
               text <- lift (Json.getitem message "message") ;;
               logger ERROR [FJson text])))) s)%py []).
    { intros s0.
      apply (tracks_bind_lift requests eq_refl). intros items _.
      eapply tracks_eq;
        [apply (tracks_for_each requests eq_refl requests_app
                  _ _ (fun _ => [])) | apply flat_map_nil].
      intros item s1.
      apply (tracks_bind_lift requests eq_refl). intros c _.
      apply (tracks_when requests eq_refl).
      apply (tracks_bind_lift requests eq_refl). intros errors _.
      apply (tracks_bind_lift requests eq_refl). intros messages _.
      eapply tracks_eq;
        [apply (tracks_for_each requests eq_refl requests_app
                  _ _ (fun _ => [])) | apply flat_map_nil].
      intros message s2.
      apply (tracks_bind_lift requests eq_refl). intros text _.
      apply (tracks_emit requests). reflexivity. }
    destruct results; solve [apply Hq | apply (tracks_ret requests eq_refl)]. }
  destruct Ht as [[rest Hrest] _].
  symmetry in Hrest. now apply app_eq_nil in Hrest.
Qed.

(** X5: whatever the shape of the batch result it is given, the error
    callback leaves the store and the batch queue as they were, makes no
    call to the store and never calls [sys.exit]: a result it cannot read
    raises, it does not end the process. *)
Theorem handle_errors_never_writes_or_exits {W : Type} `{World W}
    (results : json) (s : state W) :
  final (handle_errors results s) = s /\
  requests (events (handle_errors results s)) = [] /\
  forall c, result (handle_errors results s) <> Exit c.
Proof.
  split; [apply quiet_handle_errors |].
  split; [apply no_requests_handle_errors | apply ne_handle_errors].
Qed.

(** X6: a load never calls [sys.exit], whatever the store answers: it
    returns or it raises. *)
Theorem load_never_exits {W : Type} `{World W}
    (class_name stage_label : string) (start end_ : Z) (s : state W) (c : Z) :
  result (load_records class_name start end_ stage_label s) <> Exit c.
Proof. apply ne_load_records. Qed.

(** X7: the only exit status the script ends with is 1: it runs to its
    end, raises, or leaves through [fatal]. *)
Theorem script_exit_status {W : Type} `{World W} (s : state W) :
  (forall c, result (main s) <> Exit c) \/ result (main s) = Exit 1.
Proof.
  assert (He : exits_with_1 (W := W) main).
  { unfold main. exit_status. }
  destruct (result (main s)) as [[] | c | e] eqn:E.
  - left. discriminate.
  - right. f_equal. now apply (He s).
  - left. discriminate.
Qed.

(* ================================================================== *)
(** * What a load has sent when it ends *)
(* ================================================================== *)

(** X8: started with an empty batch queue, what a load has sent when it
    ends, however it ends, is the records of an initial segment of its
    range, one per index and in the order of the range; when it returns,
    that segment is the whole range. *)
Theorem load_writes_an_initial_segment {W : Type} `{World W}
    (class_name stage_label : string) (start end_ : Z) (s : state W) :
  pending s = [] ->
  exists ys zs,
    py_range start end_ = ys ++ zs /\
    map (fun o => index_id (bo_data_object o))
        (loaded (load_records class_name start end_ stage_label s)) = ys /\
    Forall (fun o => bo_class_name o = class_name /\
                     stage (bo_data_object o) = stage_label /\
                     bo_uuid o = UUID.Make (index_id (bo_data_object o)))
           (loaded (load_records class_name start end_ stage_label s)) /\
    (result (load_records class_name start end_ stage_label s) = Return tt ->
     zs = []).
Proof.
  intros Hs.
  destruct (load_records_spec class_name start end_ stage_label s Hs)
    as [[Hl Hr] | (threshold & ys & zs & Ht & Hrange & _ & Hc & Hz)].
  - exists [], (py_range start end_). rewrite Hl.
    repeat split; [constructor | intros Hret; now apply Hr in Hret].
  - exists ys, zs. split; [assumption |]. split; [| split; [| assumption]].
    + transitivity
        (map (fun c : data_object * string * UUID.t => index_id (fst (fst c)))
           (map content
              (loaded (load_records class_name start end_ stage_label s)))).
      { rewrite map_map. reflexivity. }
      rewrite Hc, map_map. cbn. apply map_id.
    + apply Forall_forall. intros o Ho.
      destruct (loaded_inv class_name stage_label start end_ s Hs o Ho)
        as (t & i & _ & _ & _ & Hcontent).
      apply content_inv in Hcontent as (Hd & Hcn & Hu).
      rewrite Hd, Hcn, Hu. now cbn.
Qed.

Lemma load_writes_an_initial_segment_witness :
  pending MemStore.start = [] /\
  exists ys zs,
    py_range 0 15 = ys ++ zs /\
    map (fun o => index_id (bo_data_object o)) (loaded Samples.load_15) = ys /\
    Forall (fun o => bo_class_name o = "C"%string /\
                     stage (bo_data_object o) = "s"%string /\
                     bo_uuid o = UUID.Make (index_id (bo_data_object o)))
           (loaded Samples.load_15) /\
    (result Samples.load_15 = Return tt -> zs = []).
Proof.
  split; [reflexivity |].
  exact (load_writes_an_initial_segment "C" "s" 0 15 MemStore.start eq_refl).
Defined.

(** X9: a load whose range holds an index that is no 128-bit unsigned
    integer does not return: [uuid.UUID(int=i)] refuses the index. *)
Theorem load_refuses_an_index_out_of_range {W : Type} `{World W}
    (class_name stage_label : string) (start end_ i : Z) (s : state W) :
  pending s = [] ->
  start <= i < end_ ->
  ~ uuid_ok i ->
  result (load_records class_name start end_ stage_label s) <> Return tt.
Proof.
  intros Hs Hi Hbad Hret.
  destruct (loaded_all class_name stage_label start end_ s Hs Hret)
    as (_ & _ & Hok & _).
  rewrite Forall_forall in Hok. apply Hbad, Hok, py_range_In. exact Hi.
Qed.

Lemma load_refuses_an_index_out_of_range_witness :
  pending MemStore.start = [] /\
  -1 <= -1 < 1 /\
  ~ uuid_ok (-1) /\
  result (load_records "C" (-1) 1 "s" MemStore.start) <> Return tt.
Proof.
  assert (Hbad : ~ uuid_ok (-1)) by (unfold uuid_ok; lia).
  split; [reflexivity |]. split; [lia |]. split; [exact Hbad |].
  apply (load_refuses_an_index_out_of_range "C" "s" (-1) 1 (-1) MemStore.start
           eq_refl); [lia | exact Hbad].
Defined.

(* ================================================================== *)
(** * The two stages of the script *)
(* ================================================================== *)

Lemma lt_cut threshold k :
  PyNum.lt (PInt (k - 1)) threshold = true ->
  PyNum.lt (PInt k) threshold = false ->
  forall i, PyNum.lt (PInt i) threshold = (i <? k).
Proof.
  intros Hbelow Hat i. destruct (i <? k) eqn:E.
  - apply Z.ltb_lt in E.
    apply (OrderFacts.lt_mono i (k - 1)); [lia | assumption].
  - apply Z.ltb_ge in E.
    destruct (PyNum.lt (PInt i) threshold) eqn:Ei; [| reflexivity].
    rewrite (OrderFacts.lt_mono k i threshold E Ei) in Hat. discriminate.
Qed.

(** X10: on the two ranges the script loads, [0, 50000) and
    [50000, 100000), the loader and the stage validator agree: the
    records marked [should_be_deleted] are those of the indices below
    5000, respectively 55000, and that is the index the validation of the
    stage starts at. *)
Theorem script_stages_mark_what_validation_skips :
  (exists threshold,
     delete_threshold start_stage_1 end_stage_1 = Return threshold /\
     start_without_deleted start_stage_1 end_stage_1 = Return 5000 /\
     forall stage_label i,
       should_be_deleted (make_data_object threshold stage_label i)
       = (i <? 5000)) /\
  (exists threshold,
     delete_threshold start_stage_2 end_stage_2 = Return threshold /\
     start_without_deleted start_stage_2 end_stage_2 = Return 55000 /\
     forall stage_label i,
       should_be_deleted (make_data_object threshold stage_label i)
       = (i <? 55000)).
Proof.
  split.
  - eexists. split; [vm_compute; reflexivity |].
    split; [vm_compute; reflexivity |].
    intros stage_label i. cbn [make_data_object should_be_deleted].
    apply lt_cut; vm_compute; reflexivity.
  - eexists. split; [vm_compute; reflexivity |].
    split; [vm_compute; reflexivity |].
    intros stage_label i. cbn [make_data_object should_be_deleted].
    apply lt_cut; vm_compute; reflexivity.
Qed.
